(** * Traceur code generation: AlphaRenamer, ForInTransformPass, RuntimeInliner

    A shallow embedding of three tree-to-tree passes of the traceur compiler
    and the properties their specification states about them.

    - [AlphaRenamer], in [src/codegeneration/AlphaRenamer.js];
    - [ForInTransformPass], in
      [src/codegeneration/generator/ForInTransformPass.js];
    - [RuntimeInliner], which follows [ForInTransformPass] in its file.

    Parse trees are modelled up to source locations: the factory functions
    build nodes with a [null] location and the specification compares trees
    structurally, so a node is its kind and its children. *)

From Stdlib Require Import List String Ascii Bool Arith Lia.
From Stdlib Require Import DecimalString DecimalNat.
Import ListNotations.
Open Scope string_scope.
Open Scope list_scope.

Set Implicit Arguments.
Set Warnings "-register-all".

(* ================================================================== *)
(** * Syntax *)

(** Modelled from the spec: [PredefinedName.js], which is not among the
    source files.  The predefined names the passes use: those of the
    implicit bindings [arguments] and [this], and [push] and [length] of
    the keys sequence. *)
Module PredefinedName.
Definition ARGUMENTS : string := "arguments".
Definition THIS : string := "this".
Definition PUSH : string := "push".
Definition LENGTH : string := "length".
End PredefinedName.

(** Modelled from the spec: [TokenType.js], which is not among the source
    files.  The token types that occur in the passes, and one catch-all for
    every other operator or keyword. *)
Inductive TokenType : Type :=
| VAR | LET | CONST
| BANG | IN | OPEN_ANGLE | PLUS_PLUS | EQUAL
| OTHER_TOKEN (text : string).

Inductive LiteralToken : Type :=
| NumberLiteral (value : nat)
| StringLiteral (value : string).

(** Modelled from the spec: [ParseTrees.js], which is not among the source
    files.  "a tagged variant with a discriminant (its syntactic kind) and
    kind-specific children, each child itself a tree node or a literal token
    (identifier name, operator, number)".  The kinds are those the passes
    name or build; a function expression is a [FunctionDeclaration] without
    a name, and [ArrayPattern] stands for the destructuring patterns.  A
    child that JavaScript leaves [null] (an absent else clause, an absent
    initializer) is [Null].

    The trees the passes are given come from the parser: the binding of a
    catch clause is a binding identifier or a pattern, the name of a
    function is a name, and so on.  On a child of a kind the grammar rules
    out the embedding of [AlphaRenamer] falls back on the default method,
    where the source would read a field that is not there. *)
Inductive ParseTree : Type :=
| Null
| Program (programElements : list ParseTree)
| Block (statements : list ParseTree)
| VariableStatement (declarations : ParseTree)
| VariableDeclarationList (declarationType : TokenType)
                          (declarations : list ParseTree)
| VariableDeclaration (lvalue initializer : ParseTree)
| BindingIdentifier (identifierToken : string)
| ArrayPattern (elements : list ParseTree)
| IdentifierExpression (identifierToken : string)
| ThisExpression
| LiteralExpression (literalToken : LiteralToken)
| ArrayLiteralExpression (elements : list ParseTree)
| MemberExpression (operand : ParseTree) (memberName : string)
| MemberLookupExpression (operand memberExpression : ParseTree)
| CallExpression (operand args : ParseTree)
| ArgumentList (args : list ParseTree)
| BinaryOperator (left : ParseTree) (operator : TokenType) (right : ParseTree)
| UnaryExpression (operator : TokenType) (operand : ParseTree)
| PostfixExpression (operand : ParseTree) (operator : TokenType)
| ParenExpression (expression : ParseTree)
| ExpressionStatement (expression : ParseTree)
| IfStatement (condition ifClause elseClause : ParseTree)
| ContinueStatement (name : option string)
| ReturnStatement (expression : ParseTree)
| ForInStatement (initializer collection body : ParseTree)
| ForStatement (initializer condition increment body : ParseTree)
| FunctionDeclaration (name : option string)
                      (formalParameterList functionBody : ParseTree)
| FormalParameterList (parameters : list ParseTree)
| TryStatement (body catchBlock finallyBlock : ParseTree)
| Catch (binding catchBody : ParseTree).

(** The direct children of a node, in field order. *)
Definition children (tree : ParseTree) : list ParseTree :=
  match tree with
  | Null | BindingIdentifier _ | IdentifierExpression _ | ThisExpression
  | LiteralExpression _ | ContinueStatement _ => []
  | Program l | Block l | VariableDeclarationList _ l | ArrayPattern l
  | ArrayLiteralExpression l | ArgumentList l | FormalParameterList l => l
  | VariableStatement a | MemberExpression a _ | UnaryExpression _ a
  | PostfixExpression a _ | ParenExpression a | ExpressionStatement a
  | ReturnStatement a => [a]
  | VariableDeclaration a b | MemberLookupExpression a b | CallExpression a b
  | BinaryOperator a _ b | FunctionDeclaration _ a b | Catch a b => [a; b]
  | IfStatement a b c | ForInStatement a b c | TryStatement a b c => [a; b; c]
  | ForStatement a b c d => [a; b; c; d]
  end.

(** [t] is [tree] itself or a node below it. *)
Inductive subtree (t : ParseTree) : ParseTree -> Prop :=
| subtree_here : subtree t t
| subtree_below : forall child tree,
    In child (children tree) -> subtree t child -> subtree t tree.

(** Modelled from the spec: [ParseTreeFactory.js], which is not among the
    source files.  Each [create*] function builds the node its name says,
    without a location: "a declaration of a fresh keys variable initialized
    to an empty sequence", "a counted loop from index 0 while index < length
    of keys, incrementing by 1", and so on.  An overloaded factory function
    has one definition per way it is called in the passes. *)
Module ParseTreeFactory.
Definition createIdentifierExpression (identifier : string) : ParseTree :=
  IdentifierExpression identifier.
Definition createFunctionDeclaration (name : string)
           (formalParameterList functionBody : ParseTree) : ParseTree :=
  FunctionDeclaration (Some name) formalParameterList functionBody.
Definition createVariableDeclaration (identifier : string)
           (initializer : ParseTree) : ParseTree :=
  VariableDeclaration (BindingIdentifier identifier) initializer.
(** [createVariableDeclarationList(type, declarations)] *)
Definition createVariableDeclarationListOf (declarationType : TokenType)
           (declarations : list ParseTree) : ParseTree :=
  VariableDeclarationList declarationType declarations.
(** [createVariableDeclarationList(type, identifier, initializer)] *)
Definition createVariableDeclarationList (declarationType : TokenType)
           (identifier : string) (initializer : ParseTree) : ParseTree :=
  createVariableDeclarationListOf declarationType
    [createVariableDeclaration identifier initializer].
(** [createVariableStatement(list)] *)
Definition createVariableStatementOf (list : ParseTree) : ParseTree :=
  VariableStatement list.
(** [createVariableStatement(type, identifier, initializer)] *)
Definition createVariableStatement (declarationType : TokenType)
           (identifier : string) (initializer : ParseTree) : ParseTree :=
  createVariableStatementOf
    (createVariableDeclarationList declarationType identifier initializer).
Definition createEmptyArrayLiteralExpression : ParseTree :=
  ArrayLiteralExpression [].
Definition createNumberLiteral (value : nat) : ParseTree :=
  LiteralExpression (NumberLiteral value).
Definition createOperatorToken (operator : TokenType) : TokenType := operator.
Definition createArgumentList (arg : ParseTree) : ParseTree :=
  ArgumentList [arg].
(** [createMemberExpression(operand, memberName)] with a name as operand *)
Definition createMemberExpression (operand memberName : string) : ParseTree :=
  MemberExpression (createIdentifierExpression operand) memberName.
Definition createMemberLookupExpression (operand memberExpression : ParseTree)
  : ParseTree := MemberLookupExpression operand memberExpression.
Definition createCallStatement (operand args : ParseTree) : ParseTree :=
  ExpressionStatement (CallExpression operand args).
Definition createBinaryOperator (left : ParseTree) (operator : TokenType)
           (right : ParseTree) : ParseTree := BinaryOperator left operator right.
Definition createAssignmentStatement (lhs rhs : ParseTree) : ParseTree :=
  ExpressionStatement (BinaryOperator lhs (createOperatorToken EQUAL) rhs).
Definition createUnaryExpression (operator : TokenType) (operand : ParseTree)
  : ParseTree := UnaryExpression operator operand.
Definition createPostfixExpression (operand : ParseTree) (operator : TokenType)
  : ParseTree := PostfixExpression operand operator.
Definition createParenExpression (expression : ParseTree) : ParseTree :=
  ParenExpression expression.
Definition createIfStatement (condition ifClause elseClause : ParseTree)
  : ParseTree := IfStatement condition ifClause elseClause.
Definition createContinueStatement : ParseTree := ContinueStatement None.
Definition createForInStatement (initializer collection body : ParseTree)
  : ParseTree := ForInStatement initializer collection body.
Definition createForStatement (initializer condition increment body : ParseTree)
  : ParseTree := ForStatement initializer condition increment body.
Definition createBlock (statements : list ParseTree) : ParseTree :=
  Block statements.
End ParseTreeFactory.
Import ParseTreeFactory.

(** JavaScript's [name in set] on a set of names. *)
Definition inb (name : string) (names : list string) : bool :=
  existsb (String.eqb name) names.

(* ================================================================== *)
(** * Scope binding analysis *)

Module VariableBinder.

(** The names a binding position declares: a binding identifier declares
    its name, a pattern the names of its elements. *)
Fixpoint boundNames (lvalue : ParseTree) : list string :=
  match lvalue with
  | BindingIdentifier x => [x]
  | ArrayPattern elements => flat_map boundNames elements
  | _ => []
  end.

Definition declaredNames (declaration : ParseTree) : list string :=
  match declaration with
  | VariableDeclaration lvalue _ => boundNames lvalue
  | _ => []
  end.

(** The names one statement of a block declares at the level of the
    block: those of a variable statement and that of a function
    declaration. *)
Definition directlyBound (statement : ParseTree) : list string :=
  match statement with
  | VariableStatement (VariableDeclarationList _ declarations) =>
      flat_map declaredNames declarations
  | FunctionDeclaration (Some f) _ _ => [f]
  | _ => []
  end.

(** Modelled from the spec: [variablesInBlock] of
    [semantics/VariableBinder.js], which is not among the source files.
    "names bound directly in this block (declarations whose declaring
      construct is a direct statement of the block -- not inside nested
      blocks, functions, or catch clauses)"; the declarations are "var / let /
      const declarations at that level, function declaration names". *)
Definition variablesInBlock (tree : ParseTree) : list string :=
  match tree with
  | Block statements => flat_map directlyBound statements
  | _ => []
  end.

(** Every [var]-declared name below [tree], nested function bodies
    excluded. *)
Fixpoint varDeclared (tree : ParseTree) : list string :=
  match tree with
  | Null | BindingIdentifier _ | IdentifierExpression _ | ThisExpression
  | LiteralExpression _ | ContinueStatement _ => []
  | FunctionDeclaration _ _ _ => []
  | VariableDeclarationList declarationType declarations =>
      (match declarationType with
       | VAR => flat_map declaredNames declarations
       | _ => []
       end) ++ flat_map varDeclared declarations
  | Program l | Block l | ArrayPattern l
  | ArrayLiteralExpression l | ArgumentList l | FormalParameterList l =>
      flat_map varDeclared l
  | VariableStatement a | MemberExpression a _ | UnaryExpression _ a
  | PostfixExpression a _ | ParenExpression a | ExpressionStatement a
  | ReturnStatement a => varDeclared a
  | VariableDeclaration a b | MemberLookupExpression a b | CallExpression a b
  | BinaryOperator a _ b | Catch a b => varDeclared a ++ varDeclared b
  | IfStatement a b c | ForInStatement a b c | TryStatement a b c =>
      varDeclared a ++ varDeclared b ++ varDeclared c
  | ForStatement a b c d =>
      varDeclared a ++ varDeclared b ++ varDeclared c ++ varDeclared d
  end.

Definition parameterNames (formalParameterList : ParseTree) : list string :=
  match formalParameterList with
  | FormalParameterList parameters => flat_map boundNames parameters
  | _ => []
  end.

(** Modelled from the spec: [variablesInFunction] of
    [semantics/VariableBinder.js], which is not among the source files.
    "names bound directly in this function (the union of formal parameter
      names and every var-declared name anywhere in the function body,
      excluding nested function bodies)". *)
Definition variablesInFunction (tree : ParseTree) : list string :=
  match tree with
  | FunctionDeclaration _ formalParameterList functionBody =>
      parameterNames formalParameterList ++ varDeclared functionBody
  | _ => []
  end.

End VariableBinder.
Import VariableBinder.

(* ================================================================== *)
(** * The generic tree transformer *)

Module ParseTreeTransformer.

(** Modelled from the spec: the default methods of
    [ParseTreeTransformer.js], which is not among the source files.  "the
      default implementation of every kind-specific method rebuilds the node
      by transforming each child"; [self] is the pass's own [transformAny],
    through which every child goes.  [transformAny(null)] is [null]. *)
Definition transformDefault (self : ParseTree -> ParseTree)
           (tree : ParseTree) : ParseTree :=
  match tree with
  | Null => Null
  | Program l => Program (map self l)
  | Block l => Block (map self l)
  | VariableStatement a => VariableStatement (self a)
  | VariableDeclarationList ty l => VariableDeclarationList ty (map self l)
  | VariableDeclaration a b => VariableDeclaration (self a) (self b)
  | BindingIdentifier x => BindingIdentifier x
  | ArrayPattern l => ArrayPattern (map self l)
  | IdentifierExpression x => IdentifierExpression x
  | ThisExpression => ThisExpression
  | LiteralExpression v => LiteralExpression v
  | ArrayLiteralExpression l => ArrayLiteralExpression (map self l)
  | MemberExpression a m => MemberExpression (self a) m
  | MemberLookupExpression a b => MemberLookupExpression (self a) (self b)
  | CallExpression a b => CallExpression (self a) (self b)
  | ArgumentList l => ArgumentList (map self l)
  | BinaryOperator a op b => BinaryOperator (self a) op (self b)
  | UnaryExpression op a => UnaryExpression op (self a)
  | PostfixExpression a op => PostfixExpression (self a) op
  | ParenExpression a => ParenExpression (self a)
  | ExpressionStatement a => ExpressionStatement (self a)
  | IfStatement a b c => IfStatement (self a) (self b) (self c)
  | ContinueStatement l => ContinueStatement l
  | ReturnStatement a => ReturnStatement (self a)
  | ForInStatement a b c => ForInStatement (self a) (self b) (self c)
  | ForStatement a b c d => ForStatement (self a) (self b) (self c) (self d)
  | FunctionDeclaration f a b => FunctionDeclaration f (self a) (self b)
  | FormalParameterList l => FormalParameterList (map self l)
  | TryStatement a b c => TryStatement (self a) (self b) (self c)
  | Catch a b => Catch (self a) (self b)
  end.

End ParseTreeTransformer.

(** [x] is written somewhere in [tree]: as an identifier expression, as a
    binding identifier, as the name of a function, or, for ["this"], as a
    this-expression. *)
Fixpoint mentions (x : string) (tree : ParseTree) : bool :=
  match tree with
  | Null | LiteralExpression _ | ContinueStatement _ => false
  | BindingIdentifier y | IdentifierExpression y => String.eqb x y
  | ThisExpression => String.eqb x PredefinedName.THIS
  | FunctionDeclaration name a b =>
      match name with Some f => String.eqb x f | None => false end
      || mentions x a || mentions x b
  | Program l | Block l | VariableDeclarationList _ l | ArrayPattern l
  | ArrayLiteralExpression l | ArgumentList l | FormalParameterList l =>
      existsb (mentions x) l
  | VariableStatement a | MemberExpression a _ | UnaryExpression _ a
  | PostfixExpression a _ | ParenExpression a | ExpressionStatement a
  | ReturnStatement a => mentions x a
  | VariableDeclaration a b | MemberLookupExpression a b | CallExpression a b
  | BinaryOperator a _ b | Catch a b => mentions x a || mentions x b
  | IfStatement a b c | ForInStatement a b c | TryStatement a b c =>
      mentions x a || mentions x b || mentions x c
  | ForStatement a b c d =>
      mentions x a || mentions x b || mentions x c || mentions x d
  end.

(** [x] occurs free in [tree]: as an identifier expression, or as a
    this-expression for ["this"], that no block, function or catch clause
    of [tree] around it binds anew. *)
Fixpoint occursFree (x : string) (tree : ParseTree) : bool :=
  match tree with
  | Null | LiteralExpression _ | ContinueStatement _
  | BindingIdentifier _ => false
  | IdentifierExpression y => String.eqb x y
  | ThisExpression => String.eqb x PredefinedName.THIS
  | Block l =>
      negb (inb x (variablesInBlock tree)) && existsb (occursFree x) l
  | FunctionDeclaration _ a b =>
      negb (String.eqb x PredefinedName.ARGUMENTS ||
            String.eqb x PredefinedName.THIS ||
            inb x (variablesInFunction tree))
      && (occursFree x a || occursFree x b)
  | Catch a b =>
      negb (match a with
            | BindingIdentifier y => String.eqb x y
            | _ => false
            end)
      && (occursFree x a || occursFree x b)
  | Program l | VariableDeclarationList _ l | ArrayPattern l
  | ArrayLiteralExpression l | ArgumentList l | FormalParameterList l =>
      existsb (occursFree x) l
  | VariableStatement a | MemberExpression a _ | UnaryExpression _ a
  | PostfixExpression a _ | ParenExpression a | ExpressionStatement a
  | ReturnStatement a => occursFree x a
  | VariableDeclaration a b | MemberLookupExpression a b | CallExpression a b
  | BinaryOperator a _ b => occursFree x a || occursFree x b
  | IfStatement a b c | ForInStatement a b c | TryStatement a b c =>
      occursFree x a || occursFree x b || occursFree x c
  | ForStatement a b c d =>
      occursFree x a || occursFree x b || occursFree x c || occursFree x d
  end.

(* ================================================================== *)
(** * AlphaRenamer *)

Module AlphaRenamer.
Import PredefinedName.

Section Methods.
(** [this.oldName_], [this.newName_] and the pass's [transformAny]. *)
Variables oldName_ newName_ : string.
Variable self : ParseTree -> ParseTree.

Definition proto := ParseTreeTransformer.transformDefault self.

Definition transformBlock (tree : ParseTree) : ParseTree :=
  if inb oldName_ (variablesInBlock tree) then
    (* the old name is bound in the block, skip rename *)
    tree
  else proto tree.

Definition transformIdentifierExpression (tree : ParseTree) : ParseTree :=
  match tree with
  | IdentifierExpression value =>
      if String.eqb oldName_ value
      then createIdentifierExpression newName_
      else tree
  | _ => tree
  end.

Definition transformThisExpression (tree : ParseTree) : ParseTree :=
  if negb (String.eqb oldName_ THIS) then tree
  else createIdentifierExpression newName_.

(** [this.oldName_ == tree.name]; an anonymous function has no name. *)
Definition isNamed (name : option string) : bool :=
  match name with
  | Some f => String.eqb oldName_ f
  | None => false
  end.

(** The function declaration is rebuilt with the new name when it is the
    function that is being renamed:
    [createFunctionDeclaration(this.newName_, tree.formalParameterList,
    tree.functionBody)] is the node of name [Some newName_] with the
    parameters and the body of [tree].  It is this rebuilt node that
    [variablesInFunction] and the default method receive. *)
Definition transformFunctionDeclaration (tree : ParseTree) : ParseTree :=
  match tree with
  | FunctionDeclaration name formalParameterList functionBody =>
      let name :=
        if isNamed name then
          (* it is the function that is being renamed *)
          Some newName_
        else name in
      let tree := FunctionDeclaration name formalParameterList functionBody in
      let doNotRecurse :=
        String.eqb oldName_ ARGUMENTS ||
        String.eqb oldName_ THIS ||
        inb oldName_ (variablesInFunction tree) in
      if doNotRecurse then tree
      else FunctionDeclaration name (self formalParameterList)
                               (self functionBody)
  | _ => tree
  end.

(** [tree.binding.isPattern()] *)
Definition isPattern (binding : ParseTree) : bool :=
  match binding with
  | ArrayPattern _ => true
  | _ => false
  end.

Definition bindingIs (binding : ParseTree) : bool :=
  match binding with
  | BindingIdentifier value => String.eqb oldName_ value
  | _ => false
  end.

Definition transformCatch (tree : ParseTree) : ParseTree :=
  match tree with
  | Catch binding _ =>
      if negb (isPattern binding) && bindingIs binding then
        (* this.oldName_ is rebound in the catch block, so don't recurse *)
        tree
      else proto tree
  | _ => tree
  end.
End Methods.

(** [transformAny] dispatches on the kind of the node: to the methods
    [AlphaRenamer] overrides, and to the default method otherwise. *)
Fixpoint transformAny (oldName_ newName_ : string) (tree : ParseTree)
         {struct tree} : ParseTree :=
  let self := transformAny oldName_ newName_ in
  match tree with
  | Block _ => transformBlock oldName_ self tree
  | IdentifierExpression _ =>
      transformIdentifierExpression oldName_ newName_ tree
  | ThisExpression => transformThisExpression oldName_ newName_ tree
  | FunctionDeclaration _ _ _ =>
      transformFunctionDeclaration oldName_ newName_ self tree
  | Catch _ _ => transformCatch oldName_ self tree
  | _ => ParseTreeTransformer.transformDefault self tree
  end.

Definition rename (tree : ParseTree) (oldName newName : string) : ParseTree :=
  transformAny oldName newName tree.

End AlphaRenamer.


(** The scopes that bind [oldName] anew, at which [AlphaRenamer] stops: a
    block that binds it directly, and a catch clause whose binding is the
    plain name. *)
Inductive rebinds (oldName : string) : ParseTree -> Prop :=
| rebinds_block : forall statements,
    In oldName (variablesInBlock (Block statements)) ->
    rebinds oldName (Block statements)
| rebinds_catch : forall catchBody,
    rebinds oldName (Catch (BindingIdentifier oldName) catchBody).

(** The names [AlphaRenamer] does not follow into a function: the implicit
    bindings [arguments] and [this], and the names the function binds. *)
Definition boundInFunction (oldName : string) (tree : ParseTree) : Prop :=
  oldName = PredefinedName.ARGUMENTS \/ oldName = PredefinedName.THIS \/
  In oldName (variablesInFunction tree).

(** Sample trees. *)
Module AlphaRenamerSamples.
(** [function f(x) { return x; }] *)
Definition function_f_x : ParseTree :=
  FunctionDeclaration (Some "f")
    (FormalParameterList [BindingIdentifier "x"])
    (Block [ReturnStatement (IdentifierExpression "x")]).

(** [a; function a(b) { return a < b; }] as a program *)
Definition program_a : ParseTree :=
  Program
    [ExpressionStatement (IdentifierExpression "a");
     FunctionDeclaration (Some "a")
       (FormalParameterList [BindingIdentifier "b"])
       (Block [ReturnStatement
                 (BinaryOperator (IdentifierExpression "a") OPEN_ANGLE
                                 (IdentifierExpression "b"))])].

(** [function g() { var m; n; }] *)
Definition function_g_var_m : ParseTree :=
  FunctionDeclaration (Some "g") (FormalParameterList [])
    (Block [VariableStatement
              (VariableDeclarationList VAR
                 [VariableDeclaration (BindingIdentifier "m") Null]);
            ExpressionStatement (IdentifierExpression "n")]).

(** [function g() { n; }] *)
Definition function_g_n : ParseTree :=
  FunctionDeclaration (Some "g") (FormalParameterList [])
    (Block [ExpressionStatement (IdentifierExpression "n")]).

(** [{ var x; x; }] *)
Definition block_var_x : ParseTree :=
  Block [VariableStatement
           (VariableDeclarationList VAR
              [VariableDeclaration (BindingIdentifier "x") Null]);
         ExpressionStatement (IdentifierExpression "x")].

(** [catch (x) { x; }] *)
Definition catch_x : ParseTree :=
  Catch (BindingIdentifier "x")
        (Block [ExpressionStatement (IdentifierExpression "x")]).
End AlphaRenamerSamples.

(* ================================================================== *)
(** * Effects: exceptions and mutable state *)

(** What a call can throw. *)
Inductive Error : Type :=
| InvalidLeftHandSide   (** [Error('Invalid left hand side of for in loop')] *)
| TypeError             (** a property read on [null] or [undefined], or a
                            call of something that is not a function *)
| AssertionFailed       (** [traceur.assert] on a falsy value *)
| NotATree              (** the source goes on with an object that is no
                            parse tree of this model: an identifier
                            expression around something that is not a name *)
| OutOfFuel.            (** the model's recursion bound was reached *)

Inductive Result (A : Type) : Type :=
| Ok (value : A)
| Throw (error : Error).
Arguments Throw {A} error.

(** A computation over a mutable state [S]: it returns or throws, and the
    state it leaves behind is observable either way. *)
Definition M (S A : Type) : Type := S -> Result A * S.

Definition ret {S A : Type} (a : A) : M S A := fun s => (Ok a, s).

Definition throw {S A : Type} (e : Error) : M S A := fun s => (Throw e, s).

Definition bind {S A B : Type} (c : M S A) (k : A -> M S B) : M S B :=
  fun s =>
    match c s with
    | (Ok a, s') => k a s'
    | (Throw e, s') => (Throw e, s')
    end.

Declare Scope monad_scope.
Delimit Scope monad_scope with monad.
Notation "x <- c ;; k" := (bind c (fun x => k))
  (at level 61, c at next level, right associativity) : monad_scope.
Notation "c ;;; k" := (bind c (fun _ => k))
  (at level 61, right associativity) : monad_scope.
Open Scope monad_scope.

(** [list.map(f)] with an effectful [f], left to right. *)
Definition mapM {S A B : Type} (f : A -> M S B) : list A -> M S (list B) :=
  fix go (l : list A) : M S (list B) :=
    match l with
    | [] => ret []
    | x :: l' => y <- f x ;; ys <- go l' ;; ret (y :: ys)
    end.

(* ================================================================== *)
(** * The unique identifier generator *)

Module UniqueIdentifierGenerator.

(** The state of a generator is its [identifierIndex]. *)
Definition t : Type := nat.

Definition identifier (index : nat) : string :=
  "$__" ++ NilEmpty.string_of_uint (Nat.to_uint index).

(** Modelled from the spec: [generateUniqueIdentifier] of
    [UniqueIdentifierGenerator.js], which is not among the source files.
    "produces identifier strings guaranteed never to collide with any
      identifier ... previously generated.  Pure counter/name-mangling
      service": the name is made of the counter, which then advances. *)
Definition generateUniqueIdentifier : M t string :=
  fun index => (Ok (identifier index), S index).

End UniqueIdentifierGenerator.

(* ================================================================== *)
(** * The generic tree transformer, for a pass with effects *)

Module ParseTreeTransformerM.
Section Default.
Variable S : Type.
Variable self : ParseTree -> M S ParseTree.

(** Modelled from the spec: the default methods of
    [ParseTreeTransformer.js], as in
    [ParseTreeTransformer.transformDefault], for a pass whose methods
    have effects: the children are transformed in field order. *)
Definition transformDefault (tree : ParseTree) : M S ParseTree :=
  match tree with
  | Null => ret Null
  | Program l => l' <- mapM self l ;; ret (Program l')
  | Block l => l' <- mapM self l ;; ret (Block l')
  | VariableStatement a => a' <- self a ;; ret (VariableStatement a')
  | VariableDeclarationList ty l =>
      l' <- mapM self l ;; ret (VariableDeclarationList ty l')
  | VariableDeclaration a b =>
      a' <- self a ;; b' <- self b ;; ret (VariableDeclaration a' b')
  | BindingIdentifier x => ret (BindingIdentifier x)
  | ArrayPattern l => l' <- mapM self l ;; ret (ArrayPattern l')
  | IdentifierExpression x => ret (IdentifierExpression x)
  | ThisExpression => ret ThisExpression
  | LiteralExpression v => ret (LiteralExpression v)
  | ArrayLiteralExpression l =>
      l' <- mapM self l ;; ret (ArrayLiteralExpression l')
  | MemberExpression a m => a' <- self a ;; ret (MemberExpression a' m)
  | MemberLookupExpression a b =>
      a' <- self a ;; b' <- self b ;; ret (MemberLookupExpression a' b')
  | CallExpression a b =>
      a' <- self a ;; b' <- self b ;; ret (CallExpression a' b')
  | ArgumentList l => l' <- mapM self l ;; ret (ArgumentList l')
  | BinaryOperator a op b =>
      a' <- self a ;; b' <- self b ;; ret (BinaryOperator a' op b')
  | UnaryExpression op a => a' <- self a ;; ret (UnaryExpression op a')
  | PostfixExpression a op => a' <- self a ;; ret (PostfixExpression a' op)
  | ParenExpression a => a' <- self a ;; ret (ParenExpression a')
  | ExpressionStatement a => a' <- self a ;; ret (ExpressionStatement a')
  | IfStatement a b c =>
      a' <- self a ;; b' <- self b ;; c' <- self c ;;
      ret (IfStatement a' b' c')
  | ContinueStatement l => ret (ContinueStatement l)
  | ReturnStatement a => a' <- self a ;; ret (ReturnStatement a')
  | ForInStatement a b c =>
      a' <- self a ;; b' <- self b ;; c' <- self c ;;
      ret (ForInStatement a' b' c')
  | ForStatement a b c d =>
      a' <- self a ;; b' <- self b ;; c' <- self c ;; d' <- self d ;;
      ret (ForStatement a' b' c' d')
  | FunctionDeclaration f a b =>
      a' <- self a ;; b' <- self b ;; ret (FunctionDeclaration f a' b')
  | FormalParameterList l =>
      l' <- mapM self l ;; ret (FormalParameterList l')
  | TryStatement a b c =>
      a' <- self a ;; b' <- self b ;; c' <- self c ;;
      ret (TryStatement a' b' c')
  | Catch a b => a' <- self a ;; b' <- self b ;; ret (Catch a' b')
  end.
End Default.
End ParseTreeTransformerM.

(* ================================================================== *)
(** * ForInTransformPass *)

Module ForInTransformPass.
Import PredefinedName UniqueIdentifierGenerator.

(** The state of the pass is [this.identifierGenerator_]. *)
Definition Pass : Type -> Type := M UniqueIdentifierGenerator.t.

(** [body.type == ParseTreeType.BLOCK ? body.statements : [body]]; reading
    [type] of a [null] body is a [TypeError]. *)
Definition statementsOf (body : ParseTree) : Pass (list ParseTree) :=
  match body with
  | Null => throw TypeError
  | Block statements => ret statements
  | _ => ret [body]
  end.

(** The two branches on [tree.initializer.type]: the result is
    [(originalKey, assignOriginalKey)]. *)
Definition originalKeyOf (initializer lookup : ParseTree)
  : Pass (ParseTree * ParseTree) :=
  match initializer with
  | Null => throw TypeError
  | VariableDeclarationList declarationType declarations =>
      (* decList.declarations[0].lvalue *)
      match declarations with
      | [] | Null :: _ => throw TypeError
      | VariableDeclaration (BindingIdentifier lvalue) _ :: _ =>
          let originalKey := createIdentifierExpression lvalue in
          (* var key = $keys[$i]; *)
          ret (originalKey,
               createVariableStatement declarationType lvalue lookup)
      | _ =>
          (* the source throws nothing here and goes on with an
             identifier expression around the pattern; the trees of this
             model hold none, and the model stops *)
          throw NotATree
      end
  | IdentifierExpression _ =>
      (* key = $keys[$i]; *)
      ret (initializer, createAssignmentStatement initializer lookup)
  | _ => throw InvalidLeftHandSide
  end.

Section Methods.
(** The pass's [transformAny]. *)
Variable self : ParseTree -> Pass ParseTree.

Definition transformForInStatement (original : ParseTree)
  : Pass ParseTree :=
  match original with
  | ForInStatement initializer collection_ body_ =>
      (* Transform body first *)
      body <- self body_ ;;
      bodyStatements <- statementsOf body ;;
      (* var $keys = []; *)
      keys <- generateUniqueIdentifier ;;
      let elements1 :=
        [createVariableStatement VAR keys
           createEmptyArrayLiteralExpression] in
      (* var $collection = object; *)
      collection <- generateUniqueIdentifier ;;
      let elements2 :=
        [createVariableStatement VAR collection collection_] in
      (* for (var $p in $collection) $keys.push($p); *)
      p <- generateUniqueIdentifier ;;
      let elements3 :=
        [createForInStatement
           (* var $p *)
           (createVariableDeclarationList VAR p Null)
           (* $collection *)
           (createIdentifierExpression collection)
           (* $keys.push($p) *)
           (createCallStatement
              (createMemberExpression keys PUSH)
              (createArgumentList (createIdentifierExpression p)))] in
      i <- generateUniqueIdentifier ;;
      (* $keys[$i] *)
      let lookup :=
        createMemberLookupExpression
          (createIdentifierExpression keys)
          (createIdentifierExpression i) in
      key <- originalKeyOf initializer lookup ;;
      let '(originalKey, assignOriginalKey) := key in
      let innerBlock :=
        (* var key = $keys[$i]; *)
        [assignOriginalKey] ++
        (* if (!(key in $collection)) continue; *)
        [createIfStatement
           (createUnaryExpression
              (createOperatorToken BANG)
              (createParenExpression
                 (createBinaryOperator
                    originalKey
                    (createOperatorToken IN)
                    (createIdentifierExpression collection))))
           createContinueStatement
           Null] ++
        (* add original body *)
        bodyStatements in
      (* for (var $i = 0; $i < $keys.length; $i++) { *)
      let elements4 :=
        [createForStatement
           (* var $i = 0 *)
           (createVariableDeclarationList VAR i (createNumberLiteral 0))
           (* $i < $keys.length *)
           (createBinaryOperator
              (createIdentifierExpression i)
              (createOperatorToken OPEN_ANGLE)
              (createMemberExpression keys LENGTH))
           (* $i++ *)
           (createPostfixExpression
              (createIdentifierExpression i)
              (createOperatorToken PLUS_PLUS))
           (* body *)
           (createBlock innerBlock)] in
      ret (createBlock (elements1 ++ elements2 ++ elements3 ++ elements4))
  | _ => throw TypeError
  end.
End Methods.

(** [transformAny]: the for-in method for a for-in statement, the default
    method for every other kind. *)
Fixpoint transformAny (tree : ParseTree) : Pass ParseTree :=
  match tree with
  | ForInStatement _ _ _ => transformForInStatement transformAny tree
  | _ => ParseTreeTransformerM.transformDefault transformAny tree
  end.

Definition transformTree (identifierGenerator : UniqueIdentifierGenerator.t)
           (tree : ParseTree) : Result ParseTree * UniqueIdentifierGenerator.t :=
  transformAny tree identifierGenerator.

(** ** The loop the specification describes *)

(** The statements of the transformed body, inlined:
    those of a block, or the one statement. *)
Definition inlined (body : ParseTree) : list ParseTree :=
  match body with
  | Block statements => statements
  | _ => [body]
  end.

(** The loop variable of a for-in statement: the name its declaration list
    declares first, or the identifier it assigns to; with it, the
    expression that reads the variable and the statement that declares
    or assigns it from [lookup]. *)
Inductive LoopVariable (lookup : ParseTree)
  : ParseTree -> ParseTree -> ParseTree -> Prop :=
| loop_declares : forall declarationType key initializer declarations,
    LoopVariable lookup
      (VariableDeclarationList declarationType
         (VariableDeclaration (BindingIdentifier key) initializer
            :: declarations))
      (IdentifierExpression key)
      (VariableStatement
         (VariableDeclarationList declarationType
            [VariableDeclaration (BindingIdentifier key) lookup]))
| loop_assigns : forall key,
    LoopVariable lookup
      (IdentifierExpression key)
      (IdentifierExpression key)
      (ExpressionStatement
         (BinaryOperator (IdentifierExpression key) EQUAL lookup)).

(** [keys[i]] *)
Definition keyAt (keys i : string) : ParseTree :=
  MemberLookupExpression (IdentifierExpression keys) (IdentifierExpression i).

(** The block the specification describes, written out:
<<
{
  var keys = [];
  var collection = COLLECTION;
  for (var p in collection) keys.push(p);
  for (var i = 0; i < keys.length; i++) {
    ASSIGN
    if (!(KEY in collection)) continue;
    BODY
  }
}
>> *)
Definition desugared (keys collection p i : string)
           (COLLECTION KEY ASSIGN : ParseTree) (BODY : list ParseTree)
  : ParseTree :=
  Block
    [VariableStatement
       (VariableDeclarationList VAR
          [VariableDeclaration (BindingIdentifier keys)
             (ArrayLiteralExpression [])]);
     VariableStatement
       (VariableDeclarationList VAR
          [VariableDeclaration (BindingIdentifier collection) COLLECTION]);
     ForInStatement
       (VariableDeclarationList VAR
          [VariableDeclaration (BindingIdentifier p) Null])
       (IdentifierExpression collection)
       (ExpressionStatement
          (CallExpression
             (MemberExpression (IdentifierExpression keys) "push")
             (ArgumentList [IdentifierExpression p])));
     ForStatement
       (VariableDeclarationList VAR
          [VariableDeclaration (BindingIdentifier i)
             (LiteralExpression (NumberLiteral 0))])
       (BinaryOperator (IdentifierExpression i) OPEN_ANGLE
          (MemberExpression (IdentifierExpression keys) "length"))
       (PostfixExpression (IdentifierExpression i) PLUS_PLUS)
       (Block
          (ASSIGN
             :: IfStatement
                  (UnaryExpression BANG
                     (ParenExpression
                        (BinaryOperator KEY IN
                           (IdentifierExpression collection))))
                  (ContinueStatement None)
                  Null
             :: BODY))].

(** A loop-variable position the pass accepts by its kind. *)
Definition acceptedKind (initializer : ParseTree) : bool :=
  match initializer with
  | VariableDeclarationList _ _ | IdentifierExpression _ => true
  | _ => false
  end.

(** Sample loops. *)
Module Samples.
(** [for (var k in o) { f(k); }] *)
Definition for_var_k : ParseTree :=
  ForInStatement
    (VariableDeclarationList VAR
       [VariableDeclaration (BindingIdentifier "k") Null])
    (IdentifierExpression "o")
    (Block [ExpressionStatement
              (CallExpression (IdentifierExpression "f")
                 (ArgumentList [IdentifierExpression "k"]))]).

(** [for (k in o) f(k);] *)
Definition for_k : ParseTree :=
  ForInStatement
    (IdentifierExpression "k")
    (IdentifierExpression "o")
    (ExpressionStatement
       (CallExpression (IdentifierExpression "f")
          (ArgumentList [IdentifierExpression "k"]))).

(** [for (var a, b in c) ;] with an empty block for the body *)
Definition for_var_a_b : ParseTree :=
  ForInStatement
    (VariableDeclarationList VAR
       [VariableDeclaration (BindingIdentifier "a") Null;
        VariableDeclaration (BindingIdentifier "b") Null])
    (IdentifierExpression "c")
    (Block []).

(** [for (o.k in c) ;]: the loop variable is a member expression *)
Definition for_member : ParseTree :=
  ForInStatement
    (MemberExpression (IdentifierExpression "o") "k")
    (IdentifierExpression "c")
    (Block []).

(** [for (x in y) ;] *)
Definition inner_loop : ParseTree :=
  ForInStatement (IdentifierExpression "x") (IdentifierExpression "y")
                 (Block []).

(** [g(function () { for (x in y) ; })] *)
Definition call_with_loop : ParseTree :=
  CallExpression (IdentifierExpression "g")
    (ArgumentList
       [FunctionDeclaration None (FormalParameterList [])
                            (Block [inner_loop])]).

(** [for (k in g(function () { for (x in y) ; })) ;] *)
Definition for_over_call : ParseTree :=
  ForInStatement (IdentifierExpression "k") call_with_loop (Block []).

(** [for (a in x) for (b in y) ;] *)
Definition nested_loops : ParseTree :=
  ForInStatement (IdentifierExpression "a") (IdentifierExpression "x")
    (ForInStatement (IdentifierExpression "b") (IdentifierExpression "y")
       (Block [])).

(** [for (a in x) { for (b in y) ; }] *)
Definition loop_in_block : ParseTree :=
  ForInStatement (IdentifierExpression "a") (IdentifierExpression "x")
    (Block
       [ForInStatement (IdentifierExpression "b") (IdentifierExpression "y")
          (Block [])]).

(** [for (k in o) { for (a.b in c) ; }] *)
Definition invalid_inner_loop : ParseTree :=
  ForInStatement (IdentifierExpression "k") (IdentifierExpression "o")
    (Block
       [ForInStatement
          (MemberExpression (IdentifierExpression "a") "b")
          (IdentifierExpression "c")
          (Block [])]).

(** [var k = e], the loop-variable position of [for (var k = e in o) ;] *)
Definition var_k_e : ParseTree :=
  VariableDeclarationList VAR
    [VariableDeclaration (BindingIdentifier "k") (IdentifierExpression "e")].

(** [for (var k = e in o) ;] *)
Definition for_var_k_e : ParseTree :=
  ForInStatement var_k_e (IdentifierExpression "o") (Block []).
End Samples.

End ForInTransformPass.

(* ================================================================== *)
(** * RuntimeInliner *)

Module RuntimeInliner.
Import UniqueIdentifierGenerator.

(** ** JavaScript values that stand where a source text is expected *)

Inductive Value : Type :=
| Undefined              (** an argument that was not given *)
| Str (text : string)
| Obj.                   (** a function or another object *)

(** What [if (v)] and [traceur.assert(v)] look at. *)
Definition truthy (v : Value) : bool :=
  match v with
  | Undefined => false
  | Str text => negb (String.eqb text EmptyString)
  | Obj => true
  end.

(** ** The registry *)

(** One entry of [this.map_]. *)
Record Item : Type :=
  { expression : ParseTree; uid : string; inserted : bool }.

(** [this.map_] is an object without a prototype that is used as a map:
    its entries, in the order in which their names were first set. *)
Definition Map : Type := list (string * Item).

Record State : Type :=
  { identifierGenerator : UniqueIdentifierGenerator.t; map_ : Map }.

(** [new RuntimeInliner(identifierGenerator)] *)
Definition new (identifierGenerator : UniqueIdentifierGenerator.t) : State :=
  {| identifierGenerator := identifierGenerator; map_ := [] |}.

(** [name in map] *)
Definition has (name : string) (map : Map) : bool :=
  existsb (fun entry => String.eqb name (fst entry)) map.

(** [map[name]] *)
Fixpoint lookup (name : string) (map : Map) : option Item :=
  match map with
  | [] => None
  | (key, item) :: map' =>
      if String.eqb name key then Some item else lookup name map'
  end.

(** [map[name] = item]: the entry of [name] is replaced where it stands,
    and a name that has none is added last. *)
Fixpoint set (name : string) (item : Item) (map : Map) : Map :=
  match map with
  | [] => [(name, item)]
  | (key, old) :: map' =>
      if String.eqb name key then (key, item) :: map'
      else (key, old) :: set name item map'
  end.

(** [Object.keys(map)] for a map none of whose names is an array index:
    the names in the order in which they were set.  (Names that are array
    indices are listed before the others, in ascending order: what depends
    on the order of the names is stated of maps that have [noIndexNames].) *)
Definition keys (map : Map) : list string := List.map fst map.





(** ** Placeholders *)

(** A piece of a source text: a character that stays, or a match of
    [/%([a-zA-Z0-9_$]+)/g] with the name it captures. *)
Inductive Piece : Type :=
| Lit (c : ascii)
| Hole (name : string).

(** [[a-zA-Z0-9_$]] *)
Definition isNameChar (c : ascii) : bool :=
  let n := nat_of_ascii c in
  (((97 <=? n) && (n <=? 122)) || ((65 <=? n) && (n <=? 90))
   || ((48 <=? n) && (n <=? 57)) || (n =? 95) || (n =? 36))%nat.

(** What a [%] and the name characters read after it amount to: a
    placeholder, or a [%] that stays when no name character follows. *)
Definition flush (pending : option string) : list Piece :=
  match pending with
  | None => []
  | Some EmptyString => [Lit "%"]
  | Some name => [Hole name]
  end.

(** The matches of the regular expression in [text], left to right, each
    as long as it can be; [pending] holds the name read so far after a
    [%]. *)
Fixpoint scan (pending : option string) (text : string) : list Piece :=
  match text with
  | EmptyString => flush pending
  | String c text' =>
      match pending with
      | Some name =>
          if isNameChar c
          then scan (Some (name ++ String c EmptyString)%string) text'
          else flush pending ++
               (if Ascii.eqb c "%" then scan (Some EmptyString) text'
                else Lit c :: scan None text')
      | None =>
          if Ascii.eqb c "%" then scan (Some EmptyString) text'
          else Lit c :: scan None text'
      end
  end.

Definition placeholders (text : string) : list Piece := scan None text.

(** [source.replace(regexp, callback)]: the callback is called for each
    match in turn, and its result stands for the match. *)
Definition replace {S : Type} (callback : string -> M S string)
  : list Piece -> M S string :=
  fix go (pieces : list Piece) : M S string :=
    match pieces with
    | [] => ret EmptyString
    | Lit c :: pieces' => rest <- go pieces' ;; ret (String c rest)
    | Hole name :: pieces' =>
        text <- callback name ;; rest <- go pieces' ;;
        ret (text ++ rest)%string
    end.

Definition isLit (piece : Piece) : bool :=
  match piece with
  | Lit _ => true
  | Hole _ => false
  end.

(** ** Shared helpers *)

(** [shared.toObject] *)
Definition toObject_source : string :=
"function(value) {
        if (value == null)
          throw TypeError();
        return Object(value);
      }".

Section Methods.
(** [parse(source, name)]: the parser is a collaborator. *)
Variable parse : string -> string -> ParseTree.

(** [shared] is an object literal, so [name in shared] also holds of
    the names it inherits from [Object.prototype] ([constructor],
    [toString], ...): [inherits] tells which names those are. *)
Variable inherits : string -> bool.

(** [name in shared] *)
Definition inShared (name : string) : bool :=
  String.eqb name "toObject" || inherits name.

(** [shared[name]] *)
Definition sharedAt (name : string) : Value :=
  if String.eqb name "toObject" then Str toObject_source
  else if inherits name then Obj
  else Undefined.

(** Modelled from the spec: [traceur.assert], which is not among the
    source files.  A helper that has no known definition "is a
        programming-error failure", "fatal" to the compilation unit: the
    assertion throws on a falsy value. *)
Definition assert (v : Value) : M State unit :=
  if truthy v then ret tt else throw AssertionFailed.

Definition generateUniqueIdentifier : M State string :=
  fun this =>
    match UniqueIdentifierGenerator.generateUniqueIdentifier
            this.(identifierGenerator) with
    | (r, g) => (r, {| identifierGenerator := g; map_ := this.(map_) |})
    end.

(** [this.map_[name].uid]: reading [uid] of an entry that does not
    exist is a [TypeError]. *)
Definition getAsString (name : string) : M State string :=
  fun this =>
    match lookup name this.(map_) with
    | Some item => (Ok item.(uid), this)
    | None => (Throw TypeError, this)
    end.

Definition getAsIdentifierExpression (name : string) : M State ParseTree :=
  fun this =>
    match lookup name this.(map_) with
    | Some item => (Ok (createIdentifierExpression item.(uid)), this)
    | None => (Throw TypeError, this)
    end.

(** [this.map_[name] = item] *)
Definition setItem (name : string) (item : Item) : M State unit :=
  fun this =>
    (Ok tt, {| identifierGenerator := this.(identifierGenerator);
               map_ := set name item this.(map_) |}).

(** The callback [register] passes to [replace], with [self.register] for
    [registerShared]: a placeholder that names a shared helper has it
    registered, and the placeholder becomes the helper's identifier. *)
Definition callback (registerShared : string -> Value -> M State unit)
           (name : string) : M State string :=
  (if inShared name then registerShared name (sharedAt name) else ret tt) ;;;
  getAsString name.

(** [register] calls itself from the callback; [fuel] bounds the depth of
    these calls.  A source that is not a string has no [replace]
    method. *)
Fixpoint register_within (fuel : nat) (name : string) (source : Value)
  : M State unit :=
  match fuel with
  | 0 => throw OutOfFuel
  | S fuel' =>
      fun this =>
        if has name this.(map_) then (Ok tt, this)
        else
          (match source with
           | Str text =>
               source' <- replace (callback (register_within fuel'))
                                  (placeholders text) ;;
               uid <- generateUniqueIdentifier ;;
               setItem name
                 {| expression := parse source' name;
                    uid := uid;
                    inserted := false |}
           | _ => throw TypeError
           end) this
  end.

(** A shared helper's text holds no placeholder, so the calls nest
    twice at most; see [register_within_enough]. *)
Definition register (name : string) (source : Value) : M State unit :=
  register_within 2 name source.

Definition get (name : string) (opt_source : Value) : M State ParseTree :=
  fun this =>
    ((if negb (has name this.(map_)) then
        let opt_source :=
          if inShared name then sharedAt name else opt_source in
        assert opt_source ;;;
        register name opt_source
      else ret tt) ;;;
     getAsIdentifierExpression name) this.

(** [tree.programElements]: reading it of [null] is a [TypeError], and a
    node that is not a program has none ([push.apply] then adds
    nothing). *)
Definition programElementsOf (tree : ParseTree)
  : Result (list ParseTree) :=
  match tree with
  | Null => Throw TypeError
  | Program programElements => Ok programElements
  | _ => Ok []
  end.

(** [!this.map_[name].inserted], for a name of [Object.keys]. *)
Definition notInserted (map : Map) (name : string) : bool :=
  match lookup name map with
  | Some item => negb item.(inserted)
  | None => false
  end.

(** The names whose declarations the next finalization injects. *)
Definition pending (map : Map) : list string :=
  filter (notInserted map) (keys map).

(** [createVariableDeclaration(item.uid, item.expression)] *)
Definition declarationOf (map : Map) (name : string) : ParseTree :=
  match lookup name map with
  | Some item => createVariableDeclaration item.(uid) item.(expression)
  | None => Null
  end.

(** [item.inserted = true] on the entry of [name] *)
Definition markInserted (map : Map) (name : string) : Map :=
  match lookup name map with
  | Some item =>
      set name {| expression := item.(expression);
                  uid := item.(uid);
                  inserted := true |} map
  | None => map
  end.

Definition transformProgram (tree : ParseTree) : M State ParseTree :=
  fun this =>
    let names := keys this.(map_) in
    if Nat.eqb (List.length names) 0 then (Ok tree, this)
    else
      let names := filter (notInserted this.(map_)) names in
      let vars := List.map (declarationOf this.(map_)) names in
      let this :=
        {| identifierGenerator := this.(identifierGenerator);
           map_ := fold_left markInserted names this.(map_) |} in
      if Nat.eqb (List.length vars) 0 then (Ok tree, this)
      else
        let variableStatement :=
          createVariableStatementOf
            (createVariableDeclarationListOf VAR vars) in
        match programElementsOf tree with
        | Ok elements =>
            let programElements := [variableStatement] ++ elements in
            (Ok (Program programElements), this)
        | Throw error => (Throw error, this)
        end.
End Methods.

(** ** Samples *)
Module Samples.
(** A parser that keeps the text it is given, as a string literal. *)
Definition quote (source name : string) : ParseTree :=
  LiteralExpression (StringLiteral source).

(** The names an object inherits from [Object.prototype] in ES5. *)
Definition es5 (name : string) : bool :=
  inb name ["constructor"; "toString"; "toLocaleString"; "valueOf";
            "hasOwnProperty"; "isPrototypeOf"; "propertyIsEnumerable"].

(** The registry after [register("toObject", shared.toObject)] on a new
    inliner whose generator is at 0. *)
Definition withToObject : State :=
  {| identifierGenerator := 1;
     map_ := [("toObject",
               {| expression := quote toObject_source "toObject";
                  uid := "$__0";
                  inserted := false |})] |}.

(** [var $__0 = <toObject>] *)
Definition toObjectStatement : ParseTree :=
  VariableStatement
    (VariableDeclarationList VAR
       [VariableDeclaration (BindingIdentifier "$__0")
          (quote toObject_source "toObject")]).

End Samples.

End RuntimeInliner.

(* ================================================================== *)
(** * Measures and invariants of the passes *)

(** The for-in statements [ForInTransformPass] desugars in [tree]: those
    its traversal reaches.  Of a for-in statement it enters the body only. *)
Fixpoint desugaredLoops (tree : ParseTree) : nat :=
  match tree with
  | Null | BindingIdentifier _ | IdentifierExpression _ | ThisExpression
  | LiteralExpression _ | ContinueStatement _ => 0
  | ForInStatement _ _ body => 1 + desugaredLoops body
  | Program l | Block l | VariableDeclarationList _ l | ArrayPattern l
  | ArrayLiteralExpression l | ArgumentList l | FormalParameterList l =>
      list_sum (map desugaredLoops l)
  | VariableStatement a | MemberExpression a _ | UnaryExpression _ a
  | PostfixExpression a _ | ParenExpression a | ExpressionStatement a
  | ReturnStatement a => desugaredLoops a
  | VariableDeclaration a b | MemberLookupExpression a b | CallExpression a b
  | BinaryOperator a _ b | FunctionDeclaration _ a b | Catch a b =>
      desugaredLoops a + desugaredLoops b
  | IfStatement a b c | TryStatement a b c =>
      desugaredLoops a + desugaredLoops b + desugaredLoops c
  | ForStatement a b c d =>
      desugaredLoops a + desugaredLoops b + desugaredLoops c
      + desugaredLoops d
  end.

Module Placeholders.
Import RuntimeInliner.

(** The text a piece stands for: the character, or [%] and the name. *)
Definition pieceText (piece : Piece) : string :=
  match piece with
  | Lit c => String c EmptyString
  | Hole name => String "%" name
  end.

(** The pieces put together again. *)
Fixpoint unscan (pieces : list Piece) : string :=
  match pieces with
  | [] => EmptyString
  | piece :: pieces' => (pieceText piece ++ unscan pieces')%string
  end.

(** A name the regular expression captures: one or more name characters. *)
Fixpoint allNameChars (name : string) : bool :=
  match name with
  | EmptyString => true
  | String c name' => isNameChar c && allNameChars name'
  end.

Definition isName (name : string) : bool :=
  match name with
  | EmptyString => false
  | _ => allNameChars name
  end.

(** The next piece does not go on with a name character. *)
Definition stopsAt (pieces : list Piece) : bool :=
  match pieces with
  | Lit c :: _ => negb (isNameChar c)
  | _ => true
  end.

(** The pieces are the matches of the regular expression: every placeholder
    holds a name and is as long as it can be, and no [%] that stays is
    followed by a name character. *)
Fixpoint matched (pieces : list Piece) : bool :=
  match pieces with
  | [] => true
  | Hole name :: pieces' => isName name && stopsAt pieces' && matched pieces'
  | Lit c :: pieces' =>
      (if Ascii.eqb c "%" then stopsAt pieces' else true) && matched pieces'
  end.

(** What the scanner holds of the text it has read: a [%] and the name
    characters after it. *)
Definition pendingText (pending : option string) : string :=
  match pending with
  | None => EmptyString
  | Some name => String "%" name
  end.

(** The text with the identifier of the helper it names for each
    placeholder, the helpers being those of [map]. *)
Fixpoint expand (map : Map) (pieces : list Piece) : string :=
  match pieces with
  | [] => EmptyString
  | Lit c :: pieces' => String c (expand map pieces')
  | Hole name :: pieces' =>
      (match lookup name map with
       | Some item => uid item
       | None => EmptyString
       end ++ expand map pieces')%string
  end.
End Placeholders.

Module Registry.
Import RuntimeInliner.

(** A later state of the registry extends an earlier one: the entries of
    the earlier state are there as they were, an entry that is new is not
    marked inserted, and the generator has not gone back. *)
Definition extends (s s' : State) : Prop :=
  identifierGenerator s <= identifierGenerator s' /\
  forall name,
    (has name (map_ s) = true ->
     lookup name (map_ s') = lookup name (map_ s)) /\
    (has name (map_ s) = false ->
     forall item, lookup name (map_ s') = Some item -> inserted item = false).

(** Every identifier of the registry was made by the generator, and no two
    entries have the same. *)
Definition uniqueIdentifiers (s : State) : Prop :=
  (forall name item,
      lookup name (map_ s) = Some item ->
      exists index,
        index < identifierGenerator s /\
        uid item = UniqueIdentifierGenerator.identifier index) /\
  (forall name name' item item',
      lookup name (map_ s) = Some item ->
      lookup name' (map_ s) = Some item' ->
      uid item = uid item' -> name = name').

(** The state after [register] has generated an identifier and set an
    entry with it. *)
Definition registered (name : string) (expression : ParseTree) (s : State)
  : State :=
  {| identifierGenerator := S (identifierGenerator s);
     map_ := set name
               {| expression := expression;
                  uid := UniqueIdentifierGenerator.identifier
                           (identifierGenerator s);
                  inserted := false |}
               (map_ s) |}.

(** The registry of [toObject] after a finalization. *)
Definition finalized : State :=
  {| identifierGenerator := 1;
     map_ := [("toObject",
               {| expression := Samples.quote toObject_source "toObject";
                  uid := "$__0";
                  inserted := true |})] |}.
End Registry.

(* ================================================================== *)
(** * NullTree *)

Module NullTree.

(** The fields [ParseTree.call(this, type, location)] sets. *)
Record Fields : Type :=
  { type : option string; location : option nat }.

(** The module's [instance] variable and the objects allocated so far; a
    reference is the index of its object. *)
Record State : Type :=
  { instance : option nat; objects : list Fields }.

(** The state when the module is loaded: [var instance;]. *)
Definition initial : State := {| instance := None; objects := [] |}.

Definition NULL_TREE : string := "NULL_TREE".

Fixpoint setFields (reference : nat) (fields : Fields) (heap : list Fields)
  : list Fields :=
  match heap, reference with
  | [], _ => []
  | _ :: heap', 0 => fields :: heap'
  | old :: heap', S reference' => old :: setFields reference' fields heap'
  end.

(** [new NullTree()]: [new] allocates [this]; the constructor returns
    [instance] when it is set, and the result is then that object;
    otherwise it sets the fields of [this], keeps [this] in [instance], and
    the result is [this].  What [ParseTree.call] does is modelled from the
    spec ("each carrying source-location metadata"): it stores its two
    arguments. *)
Definition construct (s : State) : nat * State :=
  let this := List.length (objects s) in
  let heap := objects s ++ [{| type := None; location := None |}] in
  match instance s with
  | Some shared => (shared, {| instance := Some shared; objects := heap |})
  | None =>
      (this,
       {| instance := Some this;
          objects := setFields this
                       {| type := Some NULL_TREE; location := None |}
                       heap |})
  end.

(** [n] constructions in a row: the references they return. *)
Fixpoint constructMany (n : nat) (s : State) : list nat * State :=
  match n with
  | 0 => ([], s)
  | S n' =>
      let (reference, s1) := construct s in
      let (references, s2) := constructMany n' s1 in
      (reference :: references, s2)
  end.

End NullTree.
(* ================================================================== *)
(** * Basic facts *)

(** Induction over trees: a property holds of every tree as soon as it
    holds of a node whose children all have it. *)
Lemma ParseTree_children_ind (P : ParseTree -> Prop) :
  (forall tree, Forall P (children tree) -> P tree) -> forall tree, P tree.
Proof.
  intros step.
  fix IH 1.
  intros tree. apply step.
  destruct tree; simpl; repeat constructor; try apply IH;
    match goal with
    | |- Forall P ?l => induction l; constructor; [apply IH | assumption]
    end.
Qed.

Lemma inb_In name names : inb name names = true <-> In name names.
Proof.
  unfold inb. rewrite existsb_exists. split.
  - intros [x [Hin Heq]]. apply String.eqb_eq in Heq. now subst.
  - intros Hin. exists name. split; [assumption | apply String.eqb_refl].
Qed.

Lemma inb_not_In name names : inb name names = false <-> ~ In name names.
Proof.
  rewrite <- inb_In. destruct (inb name names); split; congruence.
Qed.

(* ================================================================== *)
(** * Properties of AlphaRenamer *)

Module AlphaRenamerFacts.
Import PredefinedName AlphaRenamer.

(** ** How [transformAny] unfolds, kind by kind *)

Lemma transformAny_Block o n l :
  transformAny o n (Block l) =
  if inb o (variablesInBlock (Block l)) then Block l
  else Block (map (transformAny o n) l).
Proof. reflexivity. Qed.

Lemma transformAny_IdentifierExpression o n x :
  transformAny o n (IdentifierExpression x) =
  if String.eqb o x then IdentifierExpression n else IdentifierExpression x.
Proof. reflexivity. Qed.

Lemma transformAny_ThisExpression o n :
  transformAny o n ThisExpression =
  if String.eqb o THIS then IdentifierExpression n else ThisExpression.
Proof.
  simpl. unfold transformThisExpression.
  now destruct (String.eqb o THIS).
Qed.

Lemma transformAny_FunctionDeclaration o n name a b :
  transformAny o n (FunctionDeclaration name a b) =
  let name' := if isNamed o name then Some n else name in
  if String.eqb o ARGUMENTS || String.eqb o THIS
     || inb o (variablesInFunction (FunctionDeclaration name' a b))
  then FunctionDeclaration name' a b
  else FunctionDeclaration name' (transformAny o n a) (transformAny o n b).
Proof. reflexivity. Qed.

Lemma transformAny_Catch o n binding body :
  transformAny o n (Catch binding body) =
  if negb (isPattern binding) && bindingIs o binding
  then Catch binding body
  else Catch (transformAny o n binding) (transformAny o n body).
Proof. reflexivity. Qed.

Lemma Forall_map_id (A : Type) (f : A -> A) (l : list A) :
  Forall (fun x => f x = x) l -> map f l = l.
Proof.
  induction 1; simpl; [reflexivity | congruence].
Qed.

Lemma existsb_false_Forall (A : Type) (p : A -> bool) (l : list A) :
  existsb p l = false -> Forall (fun x => p x = false) l.
Proof.
  induction l as [|x l IH]; simpl; intros H; constructor;
    apply orb_false_iff in H; tauto.
Qed.

Lemma Forall_impl_Forall (A : Type) (P Q : A -> Prop) (l : list A) :
  Forall (fun x => P x -> Q x) l -> Forall P l -> Forall Q l.
Proof.
  induction 1; intros HP; inversion HP; subst; constructor; auto.
Qed.

(** ** Names that are not written in a tree are not bound in it *)

Ltac split_Forall :=
  repeat match goal with
         | H : Forall _ (_ :: _) |- _ => inversion H; clear H; subst
         | H : Forall _ [] |- _ => clear H
         end.

Ltac split_orb :=
  repeat match goal with
         | H : _ || _ = false |- _ =>
             apply orb_false_iff in H; destruct H
         end.

Lemma flat_map_mentions (f : ParseTree -> list string) x l :
  (forall e, In e l -> In x (f e) -> mentions x e = true) ->
  In x (flat_map f l) -> existsb (mentions x) l = true.
Proof.
  intros Hf Hin. apply in_flat_map in Hin. destruct Hin as [e [He Hx]].
  apply existsb_exists. exists e. auto.
Qed.

Lemma boundNames_mentions x tree :
  In x (boundNames tree) -> mentions x tree = true.
Proof.
  induction tree as [tree IH] using ParseTree_children_ind.
  destruct tree; simpl in *; try tauto.
  - intros [-> | []]. apply String.eqb_refl.
  - apply flat_map_mentions. now rewrite <- Forall_forall.
Qed.

Lemma declaredNames_mentions x tree :
  In x (declaredNames tree) -> mentions x tree = true.
Proof.
  destruct tree; simpl; try tauto.
  intros Hin. apply boundNames_mentions in Hin. now rewrite Hin.
Qed.

Lemma directlyBound_mentions x tree :
  In x (directlyBound tree) -> mentions x tree = true.
Proof.
  destruct tree; simpl; try tauto.
  - destruct tree; simpl; try tauto.
    apply flat_map_mentions. intros e _. apply declaredNames_mentions.
  - destruct name; simpl; try tauto.
    intros [-> | []]. now rewrite String.eqb_refl.
Qed.

Lemma variablesInBlock_mentions x tree :
  In x (variablesInBlock tree) -> mentions x tree = true.
Proof.
  destruct tree; simpl; try tauto.
  apply flat_map_mentions. intros e _. apply directlyBound_mentions.
Qed.

Lemma varDeclared_mentions x tree :
  In x (varDeclared tree) -> mentions x tree = true.
Proof.
  induction tree as [tree IH] using ParseTree_children_ind.
  destruct tree; simpl in *; try tauto;
    try (apply flat_map_mentions; now rewrite <- Forall_forall);
    split_Forall; repeat rewrite in_app_iff; repeat rewrite orb_true_iff;
    try tauto.
  intros [Hin | Hin].
  - destruct declarationType; simpl in Hin; try tauto.
    revert Hin. apply flat_map_mentions.
    intros e _. apply declaredNames_mentions.
  - revert Hin. apply flat_map_mentions. now rewrite <- Forall_forall.
Qed.

Lemma variablesInFunction_mentions x tree :
  In x (variablesInFunction tree) -> mentions x tree = true.
Proof.
  destruct tree; simpl; try tauto.
  rewrite in_app_iff. intros [Hin | Hin].
  - assert (mentions x tree1 = true) as ->;
      [|now rewrite orb_true_r].
    destruct tree1; simpl in *; try tauto.
    revert Hin. apply flat_map_mentions.
    intros e _. apply boundNames_mentions.
  - apply varDeclared_mentions in Hin. rewrite Hin. apply orb_true_r.
Qed.

(** ** Renaming a name that is not written in the tree *)

Lemma map_absent (f : ParseTree -> ParseTree) (p : ParseTree -> bool) l :
  Forall (fun t => p t = false -> f t = t) l ->
  existsb p l = false -> map f l = l.
Proof.
  intros IH Habs. apply Forall_map_id.
  apply existsb_false_Forall in Habs.
  revert Habs. now apply Forall_impl_Forall.
Qed.

Lemma inb_absent x names tree :
  (forall y, In y names -> mentions y tree = true) ->
  mentions x tree = false -> inb x names = false.
Proof.
  intros Hsub Habs. apply inb_not_In. intros Hin.
  apply Hsub in Hin. congruence.
Qed.

Lemma rename_absent o n tree :
  mentions o tree = false -> transformAny o n tree = tree.
Proof.
  induction tree as [tree IH] using ParseTree_children_ind.
  intros Habs.
  destruct tree;
    try (simpl in *; split_Forall; split_orb; f_equal;
         solve [auto | eapply map_absent; eassumption]).
  - (* Block *)
    rewrite transformAny_Block.
    destruct (inb o _); [reflexivity|].
    simpl in *. f_equal. eapply map_absent; eassumption.
  - (* IdentifierExpression *)
    rewrite transformAny_IdentifierExpression. simpl in Habs.
    now rewrite Habs.
  - (* ThisExpression *)
    rewrite transformAny_ThisExpression. simpl in Habs. now rewrite Habs.
  - (* FunctionDeclaration *)
    rewrite transformAny_FunctionDeclaration.
    simpl in Habs, IH. split_Forall. split_orb.
    assert (isNamed o name = false) as -> by (destruct name; assumption).
    cbv zeta. destruct (_ || _); [reflexivity|].
    f_equal; auto.
  - (* Catch *)
    rewrite transformAny_Catch.
    destruct (_ && _); [reflexivity|].
    simpl in *. split_Forall. split_orb. f_equal; auto.
Qed.

(** ** Renaming leaves the binding structure alone *)

Lemma boundNames_rename o n tree :
  boundNames (transformAny o n tree) = boundNames tree.
Proof.
  induction tree as [tree IH] using ParseTree_children_ind.
  destruct tree; try reflexivity.
  - rewrite transformAny_Block. now destruct (inb o _).
  - simpl. rewrite flat_map_concat_map, map_map, <- flat_map_concat_map.
    simpl in IH. induction IH as [|e l He _ IHl]; simpl; congruence.
  - rewrite transformAny_IdentifierExpression. now destruct (String.eqb o _).
  - rewrite transformAny_ThisExpression. now destruct (String.eqb o _).
  - rewrite transformAny_FunctionDeclaration. cbv zeta.
    now destruct (_ || _).
  - rewrite transformAny_Catch. now destruct (_ && _).
Qed.

Lemma flat_map_rename (f : ParseTree -> list string) o n l :
  Forall (fun t => f (transformAny o n t) = f t) l ->
  flat_map f (map (transformAny o n) l) = flat_map f l.
Proof.
  induction 1; simpl; congruence.
Qed.

Lemma declaredNames_rename o n tree :
  declaredNames (transformAny o n tree) = declaredNames tree.
Proof.
  destruct tree; try reflexivity.
  - rewrite transformAny_Block. now destruct (inb o _).
  - simpl. apply boundNames_rename.
  - rewrite transformAny_IdentifierExpression. now destruct (String.eqb o _).
  - rewrite transformAny_ThisExpression. now destruct (String.eqb o _).
  - rewrite transformAny_FunctionDeclaration. cbv zeta.
    now destruct (_ || _).
  - rewrite transformAny_Catch. now destruct (_ && _).
Qed.

Lemma parameterNames_rename o n tree :
  parameterNames (transformAny o n tree) = parameterNames tree.
Proof.
  destruct tree; try reflexivity.
  - rewrite transformAny_Block. now destruct (inb o _).
  - rewrite transformAny_IdentifierExpression. now destruct (String.eqb o _).
  - rewrite transformAny_ThisExpression. now destruct (String.eqb o _).
  - rewrite transformAny_FunctionDeclaration. cbv zeta.
    now destruct (_ || _).
  - simpl. apply flat_map_rename.
    apply Forall_forall. intros e _. apply boundNames_rename.
  - rewrite transformAny_Catch. now destruct (_ && _).
Qed.

Lemma varDeclared_rename o n tree :
  varDeclared (transformAny o n tree) = varDeclared tree.
Proof.
  induction tree as [tree IH] using ParseTree_children_ind.
  destruct tree;
    try (simpl in *; split_Forall;
         solve [auto | apply flat_map_rename; assumption | congruence]).
  - rewrite transformAny_Block. destruct (inb o _); [reflexivity|].
    simpl in *. now apply flat_map_rename.
  - simpl in *. f_equal; [|now apply flat_map_rename].
    destruct declarationType; try reflexivity.
    apply flat_map_rename.
    apply Forall_forall. intros e _. apply declaredNames_rename.
  - rewrite transformAny_IdentifierExpression. now destruct (String.eqb o _).
  - rewrite transformAny_ThisExpression. now destruct (String.eqb o _).
  - rewrite transformAny_FunctionDeclaration. cbv zeta.
    now destruct (_ || _).
  - rewrite transformAny_Catch. destruct (_ && _); [reflexivity|].
    simpl in *. split_Forall. congruence.
Qed.

Lemma directlyBound_rename o n tree :
  ~ In o (directlyBound tree) ->
  directlyBound (transformAny o n tree) = directlyBound tree.
Proof.
  intros Hfree.
  destruct tree; try reflexivity.
  - rewrite transformAny_Block. now destruct (inb o _).
  - change (transformAny o n (VariableStatement tree))
      with (VariableStatement (transformAny o n tree)).
    destruct tree; try reflexivity.
    + rewrite transformAny_Block. now destruct (inb o _).
    + simpl. apply flat_map_rename.
      apply Forall_forall. intros e _. apply declaredNames_rename.
    + rewrite transformAny_IdentifierExpression.
      now destruct (String.eqb o _).
    + rewrite transformAny_ThisExpression.
      now destruct (String.eqb o _).
    + rewrite transformAny_FunctionDeclaration. cbv zeta.
      now destruct (_ || _).
    + rewrite transformAny_Catch. now destruct (_ && _).
  - rewrite transformAny_IdentifierExpression. now destruct (String.eqb o _).
  - rewrite transformAny_ThisExpression. now destruct (String.eqb o _).
  - rewrite transformAny_FunctionDeclaration. cbv zeta.
    assert (isNamed o name = false) as ->.
    { destruct name as [f|]; simpl in *; [|reflexivity].
      apply String.eqb_neq. intros ->. apply Hfree. now left. }
    now destruct (_ || _).
  - rewrite transformAny_Catch. now destruct (_ && _).
Qed.

Lemma variablesInBlock_rename o n l :
  ~ In o (variablesInBlock (Block l)) ->
  variablesInBlock (Block (map (transformAny o n) l)) =
  variablesInBlock (Block l).
Proof.
  simpl. induction l as [|s l IH]; simpl; [reflexivity|].
  rewrite in_app_iff. intros Hfree.
  rewrite directlyBound_rename, IH; tauto.
Qed.

Lemma bindingIs_rename x o n tree :
  bindingIs x (transformAny o n tree) = bindingIs x tree.
Proof.
  destruct tree; try reflexivity.
  - rewrite transformAny_Block. now destruct (inb o _).
  - rewrite transformAny_IdentifierExpression. now destruct (String.eqb o _).
  - rewrite transformAny_ThisExpression. now destruct (String.eqb o _).
  - rewrite transformAny_FunctionDeclaration. cbv zeta.
    now destruct (_ || _).
  - rewrite transformAny_Catch. now destruct (_ && _).
Qed.

(** ** Renaming there and back *)

Section RoundTrip.
Variables n m : string.
Hypothesis n_not_this : n <> THIS.
Hypothesis m_not_this : m <> THIS.
Hypothesis m_not_arguments : m <> ARGUMENTS.

Lemma rename_back tree :
  mentions m tree = false ->
  transformAny m n (transformAny n m tree) = tree.
Proof.
  induction tree as [tree IH] using ParseTree_children_ind.
  intros Habs.
  destruct tree;
    try (simpl in *; split_Forall; split_orb; f_equal;
         solve [auto
               | rewrite map_map; eapply map_absent; eassumption]).
  - (* Block *)
    rewrite transformAny_Block.
    destruct (inb n _) eqn:Hbound.
    + now apply rename_absent.
    + apply inb_not_In in Hbound.
      rewrite transformAny_Block, variablesInBlock_rename by assumption.
      rewrite (@inb_absent m _ (Block statements)); trivial.
      * simpl in *. f_equal. rewrite map_map.
        eapply map_absent; eassumption.
      * intros y. apply variablesInBlock_mentions.
  - (* IdentifierExpression *)
    rewrite transformAny_IdentifierExpression. simpl in Habs.
    destruct (String.eqb n identifierToken) eqn:Hn.
    + rewrite transformAny_IdentifierExpression, String.eqb_refl.
      apply String.eqb_eq in Hn. now subst.
    + rewrite transformAny_IdentifierExpression. now rewrite Habs.
  - (* ThisExpression *)
    rewrite transformAny_ThisExpression.
    rewrite (proj2 (String.eqb_neq _ _) n_not_this).
    rewrite transformAny_ThisExpression.
    now rewrite (proj2 (String.eqb_neq _ _) m_not_this).
  - (* FunctionDeclaration *)
    rename tree1 into params, tree2 into body.
    simpl in Habs, IH.
    apply orb_false_iff in Habs as [Habs Hbody].
    apply orb_false_iff in Habs as [Hfname Hparams].
    inversion IH as [|? ? IHparams IH']; subst; clear IH.
    inversion IH' as [|? ? IHbody _]; subst; clear IH'.
    rewrite transformAny_FunctionDeclaration. cbv zeta.
    set (name' := if isNamed n name then Some m else name).
    assert (Hname : (if isNamed m name' then Some n else name') = name).
    { subst name'. destruct name as [f|]; simpl in *; [|reflexivity].
      destruct (String.eqb n f) eqn:Hn; simpl.
      - rewrite String.eqb_refl. apply String.eqb_eq in Hn. now subst.
      - now rewrite Hfname. }
    assert (Hm : forall a b,
               parameterNames a = parameterNames params ->
               varDeclared b = varDeclared body ->
               String.eqb m ARGUMENTS || String.eqb m THIS
               || inb m (variablesInFunction (FunctionDeclaration name a b))
               = false).
    { intros a b Ha Hb.
      pose proof (proj2 (String.eqb_neq _ _) m_not_this) as E1.
      pose proof (proj2 (String.eqb_neq _ _) m_not_arguments) as E2.
      rewrite E1, E2. simpl. rewrite Ha, Hb.
      apply (@inb_absent m _ (FunctionDeclaration name params body)).
      - exact (fun y => @variablesInFunction_mentions y
                          (FunctionDeclaration name params body)).
      - simpl. now rewrite Hfname, Hparams, Hbody. }
    match goal with
    | |- context [if ?c then _ else _] => destruct c
    end.
    + rewrite transformAny_FunctionDeclaration. cbv zeta.
      rewrite Hname. simpl variablesInFunction in *.
      rewrite (Hm params body) by reflexivity.
      now rewrite !rename_absent.
    + rewrite transformAny_FunctionDeclaration. cbv zeta.
      rewrite Hname. simpl variablesInFunction in *.
      rewrite Hm
        by (apply parameterNames_rename || apply varDeclared_rename).
      f_equal; auto.
  - (* Catch *)
    rename tree1 into binding, tree2 into body.
    simpl in Habs, IH.
    apply orb_false_iff in Habs as [Hbinding Hbody].
    inversion IH as [|? ? IHbinding IH']; subst; clear IH.
    inversion IH' as [|? ? IHbody _]; subst; clear IH'.
    assert (Hm : forall b, bindingIs m b = true -> mentions m b = true).
    { intros b. destruct b; simpl; congruence. }
    rewrite transformAny_Catch.
    destruct (_ && _) eqn:Hstop.
    + rewrite transformAny_Catch.
      destruct (bindingIs m binding) eqn:Hb;
        [apply Hm in Hb; congruence|].
      rewrite andb_false_r. now rewrite !rename_absent.
    + rewrite transformAny_Catch.
      destruct (bindingIs m (transformAny n m binding)) eqn:Hb.
      * rewrite bindingIs_rename in Hb. apply Hm in Hb. congruence.
      * rewrite andb_false_r. f_equal; auto.
Qed.
End RoundTrip.

(** ** The round trip *)

(** The round trip fails for names that are not free in the tree.
    Renaming [this] away and back does not restore a this-expression: the
    way back builds an identifier expression named ["this"].  A new name
    that the tree binds captures the renamed occurrences: in
    [function g() { var m; n; }] the name [m] is not free, and renaming [n]
    to [m] and back leaves [function g() { var m; m; }].  A function body
    is not entered when the old name is [arguments], so a rename to
    [arguments] is not undone in [function g() { n; }]. *)
Lemma rename_round_trip_counterexample :
  (occursFree "x" ThisExpression = false /\
   rename (rename ThisExpression THIS "x") "x" THIS
   = IdentifierExpression "this" /\
   rename (rename ThisExpression THIS "x") "x" THIS <> ThisExpression) /\
  (occursFree "m" AlphaRenamerSamples.function_g_var_m = false /\
   rename (rename AlphaRenamerSamples.function_g_var_m "n" "m") "m" "n"
   <> AlphaRenamerSamples.function_g_var_m) /\
  (occursFree ARGUMENTS AlphaRenamerSamples.function_g_n = false /\
   mentions ARGUMENTS AlphaRenamerSamples.function_g_n = false /\
   rename (rename AlphaRenamerSamples.function_g_n "n" ARGUMENTS) ARGUMENTS "n"
   <> AlphaRenamerSamples.function_g_n).
Proof.
  split; [|split].
  - split; [reflexivity|]. split; [reflexivity | discriminate].
  - split; [reflexivity | discriminate].
  - split; [reflexivity|]. split; [reflexivity | discriminate].
Qed.

(** A name that is not written in a tree does not occur free in it. *)
Lemma occursFree_mentions x tree :
  occursFree x tree = true -> mentions x tree = true.
Proof.
  induction tree as [tree IH] using ParseTree_children_ind.
  destruct tree; simpl in *; try discriminate; try tauto;
    split_Forall;
    repeat rewrite andb_true_iff; repeat rewrite orb_true_iff;
    try tauto;
    try (intros [_ H] || intros H);
    try (apply existsb_exists in H; destruct H as [e [He Hx]];
         apply existsb_exists; exists e; split; [assumption|];
         rewrite Forall_forall in IH; auto).
Qed.

(** C1 (amended): for every tree [T] and every pair of names [n], [m]
    where [n] is not ["this"], [m] is neither ["this"] nor ["arguments"]
    and [m] is not written anywhere in [T] (neither free nor bound),
    renaming [n] to [m] and then [m] to [n] yields [T] again. *)
Theorem rename_round_trip (T : ParseTree) (n m : string) :
  n <> THIS -> m <> THIS -> m <> ARGUMENTS ->
  mentions m T = false ->
  rename (rename T n m) m n = T.
Proof.
  intros Hn Hm Ha Habs. unfold rename. now apply rename_back.
Qed.

Lemma rename_round_trip_witness :
  "a" <> THIS /\ "z" <> THIS /\ "z" <> ARGUMENTS /\
  mentions "z" AlphaRenamerSamples.program_a = false /\
  rename AlphaRenamerSamples.program_a "a" "z" <> AlphaRenamerSamples.program_a /\
  rename (rename AlphaRenamerSamples.program_a "a" "z") "z" "a" = AlphaRenamerSamples.program_a.
Proof.
  do 3 (split; [discriminate|]).
  split; [reflexivity|]. split; [discriminate|].
  apply rename_round_trip; (discriminate || reflexivity).
Defined.

(** ** Function declarations *)

(** C3: on a function declaration, renaming rewrites the declared name
    exactly when it equals the old name, and leaves the parameters and the
    body as they are whenever the old name is [arguments], [this] or among
    the names bound directly in the function. *)
Theorem rename_function_declaration
        (oldName newName : string) (name : option string)
        (formalParameterList functionBody : ParseTree) :
  let tree := FunctionDeclaration name formalParameterList functionBody in
  exists name' formalParameterList' functionBody',
    rename tree oldName newName
    = FunctionDeclaration name' formalParameterList' functionBody' /\
    (name = Some oldName -> name' = Some newName) /\
    (name <> Some oldName -> name' = name) /\
    (boundInFunction oldName tree ->
     formalParameterList' = formalParameterList /\
     functionBody' = functionBody).
Proof.
  intros tree. unfold rename. subst tree.
  rewrite transformAny_FunctionDeclaration. cbv zeta.
  set (name' := if isNamed oldName name then Some newName else name).
  assert (Hyes : name = Some oldName -> name' = Some newName).
  { intros ->. subst name'. simpl. now rewrite String.eqb_refl. }
  assert (Hno : name <> Some oldName -> name' = name).
  { intros Hne. subst name'. destruct name as [f|]; simpl; [|reflexivity].
    destruct (String.eqb oldName f) eqn:E; [|reflexivity].
    apply String.eqb_eq in E. congruence. }
  match goal with
  | |- context [if ?c then _ else _] => destruct c eqn:Hstop
  end.
  - exists name', formalParameterList, functionBody. auto.
  - exists name', (transformAny oldName newName formalParameterList),
      (transformAny oldName newName functionBody).
    repeat split; auto;
      exfalso; apply orb_false_iff in Hstop as [Hstop Hbound];
      apply orb_false_iff in Hstop as [Hargs Hthis];
      apply String.eqb_neq in Hargs, Hthis; apply inb_not_In in Hbound;
      unfold boundInFunction in *; simpl in *; tauto.
Qed.

(** Renaming [x] to [y] in [function f(x) { return x; }] leaves the
    function as it is, and renaming [f] to [g] rewrites only its name. *)
Lemma rename_function_declaration_witness :
  boundInFunction "x" AlphaRenamerSamples.function_f_x /\
  rename AlphaRenamerSamples.function_f_x "x" "y" = AlphaRenamerSamples.function_f_x /\
  rename AlphaRenamerSamples.function_f_x "f" "g"
  = FunctionDeclaration (Some "g")
      (FormalParameterList [BindingIdentifier "x"])
      (Block [ReturnStatement (IdentifierExpression "x")]).
Proof.
  assert (Hx : boundInFunction "x" AlphaRenamerSamples.function_f_x)
    by (right; right; simpl; auto).
  split; [exact Hx|]. split.
  - destruct (rename_function_declaration "x" "y" (Some "f")
                (FormalParameterList [BindingIdentifier "x"])
                (Block [ReturnStatement (IdentifierExpression "x")]))
      as (name' & params' & body' & Heq & _ & Hname & Hkeep).
    unfold AlphaRenamerSamples.function_f_x. rewrite Heq.
    rewrite Hname by discriminate.
    destruct (Hkeep Hx) as [-> ->]. reflexivity.
  - destruct (rename_function_declaration "f" "g" (Some "f")
                (FormalParameterList [BindingIdentifier "x"])
                (Block [ReturnStatement (IdentifierExpression "x")]))
      as (name' & params' & body' & Heq & Hname & _ & _).
    unfold AlphaRenamerSamples.function_f_x. rewrite Heq.
    rewrite Hname by reflexivity.
    injection Heq as _ <- <-. reflexivity.
Defined.

(** ** Rebinding scopes *)

(** C4: renaming stops at a scope that binds the old name anew and
    returns it unchanged: a block in which the old name is among the names
    bound directly, and a catch clause whose binding is the plain name. *)
Theorem rename_stops_at_rebinding
        (tree : ParseTree) (oldName newName : string) :
  rebinds oldName tree -> rename tree oldName newName = tree.
Proof.
  intros [statements Hbound | catchBody]; unfold rename.
  - rewrite transformAny_Block.
    apply inb_In in Hbound. now rewrite Hbound.
  - rewrite transformAny_Catch. simpl. now rewrite String.eqb_refl.
Qed.

Lemma rename_stops_at_rebinding_witness :
  rename AlphaRenamerSamples.block_var_x "x" "y" = AlphaRenamerSamples.block_var_x /\
  rename AlphaRenamerSamples.catch_x "x" "y" = AlphaRenamerSamples.catch_x.
Proof.
  split; apply rename_stops_at_rebinding.
  - apply rebinds_block. simpl. auto.
  - apply rebinds_catch.
Defined.

End AlphaRenamerFacts.

(* ================================================================== *)
(** * Properties of ForInTransformPass *)

Module ForInTransformPassFacts.
Import PredefinedName UniqueIdentifierGenerator ForInTransformPass.

(** ** Generated identifiers *)

Lemma identifier_inj i j : identifier i = identifier j -> i = j.
Proof.
  unfold identifier. simpl. intros H. injection H as H.
  apply Unsigned.to_uint_inj.
  pose proof (NilEmpty.usu (Nat.to_uint i)) as Hi.
  pose proof (NilEmpty.usu (Nat.to_uint j)) as Hj.
  rewrite H in Hi. congruence.
Qed.

Lemma identifiers_fresh g :
  NoDup [identifier g; identifier (1 + g);
         identifier (2 + g); identifier (3 + g)].
Proof.
  repeat constructor; simpl; intros H;
    repeat (destruct H as [H | H]; [apply identifier_inj in H; lia|]);
    exact H.
Qed.

(** ** The transformed body *)

Ltac run :=
  repeat match goal with
         | H : context [match ?c ?s with _ => _ end] |- _ =>
             destruct (c s) as [[?|?] ?] eqn:?
         | H : context [let '(_, _) := ?p in _] |- _ => destruct p
         | H : (_, _) = (_, _) |- _ => inversion H; clear H; subst
         end.

Lemma transformAny_not_Null tree g tree' g' :
  transformAny tree g = (Ok tree', g') -> tree <> Null -> tree' <> Null.
Proof.
  intros Hrun Hnot.
  destruct tree; try congruence; simpl in Hrun;
    unfold bind, ret, throw in Hrun; run; try discriminate.
Qed.

Lemma statementsOf_inlined body g :
  body <> Null -> statementsOf body g = (Ok (inlined body), g).
Proof.
  intros Hnot. destruct body; try reflexivity. congruence.
Qed.

(** ** The desugared loop *)

(** The body is transformed first, and what its transformation throws is
    thrown by the loop: [for (k in o) { for (a.b in c) ; }] has a plain
    identifier for its loop variable, and [transformForInStatement]
    returns no block for it but throws
    ['Invalid left hand side of for in loop'], from the loop in its
    body. *)
Lemma invalid_inner_loop_counterexample :
  Samples.invalid_inner_loop
  = ForInStatement (IdentifierExpression "k") (IdentifierExpression "o")
      (Block [ForInStatement
                (MemberExpression (IdentifierExpression "a") "b")
                (IdentifierExpression "c") (Block [])])
  /\ acceptedKind (IdentifierExpression "k") = true
  /\ transformForInStatement transformAny Samples.invalid_inner_loop 0
     = (Throw InvalidLeftHandSide, 4)
  /\ forall block g,
       transformForInStatement transformAny Samples.invalid_inner_loop 0
       <> (Ok block, g).
Proof.
  split; [reflexivity|]. split; [reflexivity|]. split; [reflexivity|].
  intros block g. discriminate.
Qed.

(** C2 (amended): for a for-in statement whose loop-variable position is a
    variable-declaration list that declares a plain name first, or a plain
    identifier reference, and whose body the pass transforms without an
    error, [transformForInStatement], and so the pass, returns the block
    of, in this order: [var keys = []]; [var collection = COLLECTION] with
    the original collection expression, which the block holds nowhere
    else; the for-in loop over [collection] that pushes each key on
    [keys]; the loop from [0] while [i < keys.length], incrementing [i],
    whose body is the declaration or assignment of the loop variable from
    [keys[i]], then [if (!(key in collection)) continue;], then the
    statements of the body as the pass transforms it, inlined.  The four
    names are the next four of the generator after the transformation of
    the body, and differ. *)
Theorem transformForInStatement_desugars
        (initializer collection body body' KEY ASSIGN : ParseTree)
        (g g1 : UniqueIdentifierGenerator.t) :
  let keys := identifier g1 in
  let collectionName := identifier (1 + g1) in
  let p := identifier (2 + g1) in
  let i := identifier (3 + g1) in
  body <> Null ->
  transformAny body g = (Ok body', g1) ->
  LoopVariable (keyAt keys i) initializer KEY ASSIGN ->
  transformForInStatement transformAny
    (ForInStatement initializer collection body) g
  = (Ok (desugared keys collectionName p i
                   collection KEY ASSIGN (inlined body')),
     4 + g1)
  /\ transformTree g (ForInStatement initializer collection body)
     = (Ok (desugared keys collectionName p i
                      collection KEY ASSIGN (inlined body')),
        4 + g1)
  /\ NoDup [keys; collectionName; p; i].
Proof.
  intros keys collectionName p i Hnode Hbody Hloop.
  assert (Hrun : transformForInStatement transformAny
                   (ForInStatement initializer collection body) g
                 = (Ok (desugared keys collectionName p i
                          collection KEY ASSIGN (inlined body')),
                    4 + g1)).
  { pose proof (@transformAny_not_Null _ _ _ _ Hbody Hnode) as Hnode'.
    unfold transformForInStatement, bind.
    rewrite Hbody, (@statementsOf_inlined _ g1 Hnode').
    destruct Hloop; reflexivity. }
  split; [exact Hrun|]. split; [exact Hrun | apply identifiers_fresh].
Qed.

(** [for (var k in o) { f(k); }] and [for (k in o) f(k);], whose bodies
    the pass leaves as they are, and [for (a in x) { for (b in y) ; }],
    whose body the pass desugars first, with the first four identifiers:
    the block of the inner loop is the last statement of the outer loop's
    body. *)
Lemma transformForInStatement_desugars_witness :
  transformForInStatement transformAny Samples.for_var_k 0
  = (Ok (desugared "$__0" "$__1" "$__2" "$__3"
           (IdentifierExpression "o")
           (IdentifierExpression "k")
           (VariableStatement
              (VariableDeclarationList VAR
                 [VariableDeclaration (BindingIdentifier "k")
                    (keyAt "$__0" "$__3")]))
           [ExpressionStatement
              (CallExpression (IdentifierExpression "f")
                 (ArgumentList [IdentifierExpression "k"]))]),
     4)
  /\ transformForInStatement transformAny Samples.for_k 0
  = (Ok (desugared "$__0" "$__1" "$__2" "$__3"
           (IdentifierExpression "o")
           (IdentifierExpression "k")
           (ExpressionStatement
              (BinaryOperator (IdentifierExpression "k") EQUAL
                 (keyAt "$__0" "$__3")))
           [ExpressionStatement
              (CallExpression (IdentifierExpression "f")
                 (ArgumentList [IdentifierExpression "k"]))]),
     4)
  /\ transformTree 0 Samples.loop_in_block
  = (Ok (desugared "$__4" "$__5" "$__6" "$__7"
           (IdentifierExpression "x")
           (IdentifierExpression "a")
           (ExpressionStatement
              (BinaryOperator (IdentifierExpression "a") EQUAL
                 (keyAt "$__4" "$__7")))
           [desugared "$__0" "$__1" "$__2" "$__3"
              (IdentifierExpression "y")
              (IdentifierExpression "b")
              (ExpressionStatement
                 (BinaryOperator (IdentifierExpression "b") EQUAL
                    (keyAt "$__0" "$__3")))
              []]),
     8).
Proof.
  split; [|split].
  - destruct (@transformForInStatement_desugars
                (VariableDeclarationList VAR
                   [VariableDeclaration (BindingIdentifier "k") Null])
                (IdentifierExpression "o")
                (Block [ExpressionStatement
                          (CallExpression (IdentifierExpression "f")
                             (ArgumentList [IdentifierExpression "k"]))])
                (Block [ExpressionStatement
                          (CallExpression (IdentifierExpression "f")
                             (ArgumentList [IdentifierExpression "k"]))])
                (IdentifierExpression "k")
                (VariableStatement
                   (VariableDeclarationList VAR
                      [VariableDeclaration (BindingIdentifier "k")
                         (keyAt "$__0" "$__3")]))
                0 0) as [Hrun _].
    + discriminate.
    + reflexivity.
    + apply loop_declares.
    + exact Hrun.
  - destruct (@transformForInStatement_desugars
                (IdentifierExpression "k")
                (IdentifierExpression "o")
                (ExpressionStatement
                   (CallExpression (IdentifierExpression "f")
                      (ArgumentList [IdentifierExpression "k"])))
                (ExpressionStatement
                   (CallExpression (IdentifierExpression "f")
                      (ArgumentList [IdentifierExpression "k"])))
                (IdentifierExpression "k")
                (ExpressionStatement
                   (BinaryOperator (IdentifierExpression "k") EQUAL
                      (keyAt "$__0" "$__3")))
                0 0) as [Hrun _].
    + discriminate.
    + reflexivity.
    + apply loop_assigns.
    + exact Hrun.
  - destruct (@transformForInStatement_desugars
                (IdentifierExpression "a")
                (IdentifierExpression "x")
                (Block
                   [ForInStatement (IdentifierExpression "b")
                      (IdentifierExpression "y") (Block [])])
                (Block
                   [desugared "$__0" "$__1" "$__2" "$__3"
                      (IdentifierExpression "y")
                      (IdentifierExpression "b")
                      (ExpressionStatement
                         (BinaryOperator (IdentifierExpression "b") EQUAL
                            (keyAt "$__0" "$__3")))
                      []])
                (IdentifierExpression "a")
                (ExpressionStatement
                   (BinaryOperator (IdentifierExpression "a") EQUAL
                      (keyAt "$__4" "$__7")))
                0 4) as (_ & Hpass & _).
    + discriminate.
    + reflexivity.
    + apply loop_assigns.
    + exact Hpass.
Defined.

(** The body is transformed first: the inner loop of
    [for (a in x) for (b in y) ;] takes the first four identifiers, and the
    four statements of its block are statements of the outer loop's body. *)
Example nested_loops_desugared :
  transformAny Samples.nested_loops 0
  = (Ok (desugared "$__4" "$__5" "$__6" "$__7"
           (IdentifierExpression "x")
           (IdentifierExpression "a")
           (ExpressionStatement
              (BinaryOperator (IdentifierExpression "a") EQUAL
                 (keyAt "$__4" "$__7")))
           (inlined
              (desugared "$__0" "$__1" "$__2" "$__3"
                 (IdentifierExpression "y")
                 (IdentifierExpression "b")
                 (ExpressionStatement
                    (BinaryOperator (IdentifierExpression "b") EQUAL
                       (keyAt "$__0" "$__3")))
                 []))),
     8).
Proof. reflexivity. Qed.

(** ** The left-hand side *)

(** A declaration list of two declarations is accepted: the loop is
    desugared with the first of them, and nothing is thrown. *)
Lemma two_declarations_counterexample :
  transformForInStatement transformAny Samples.for_var_a_b 0
  = (Ok (desugared "$__0" "$__1" "$__2" "$__3"
           (IdentifierExpression "c")
           (IdentifierExpression "a")
           (VariableStatement
              (VariableDeclarationList VAR
                 [VariableDeclaration (BindingIdentifier "a")
                    (keyAt "$__0" "$__3")]))
           []),
     4)
  /\ transformForInStatement transformAny Samples.for_var_a_b 0
     <> (Throw InvalidLeftHandSide, 4).
Proof. split; [reflexivity | discriminate]. Qed.

(** C8 (amended): for a for-in statement whose loop-variable position is
    neither a variable-declaration list, of whatever length, nor a plain
    identifier reference, [transformForInStatement] produces no output
    but throws; once the body is transformed, what it throws for a
    loop-variable position that is a node is
    ['Invalid left hand side of for in loop']. *)
Theorem transformForInStatement_invalid_left_hand_side
        (initializer collection body : ParseTree)
        (g : UniqueIdentifierGenerator.t) :
  acceptedKind initializer = false ->
  (exists e g',
      transformForInStatement transformAny
        (ForInStatement initializer collection body) g = (Throw e, g'))
  /\ (forall body' g1,
        initializer <> Null -> body <> Null ->
        transformAny body g = (Ok body', g1) ->
        transformForInStatement transformAny
          (ForInStatement initializer collection body) g
        = (Throw InvalidLeftHandSide, 4 + g1)).
Proof.
  intros Hkind. split.
  - unfold transformForInStatement, bind.
    destruct (transformAny body g) as [[body'|e] g1]; [|eauto].
    destruct (statementsOf body' g1) as [[statements|e] g2]; [|eauto].
    simpl. destruct initializer; try discriminate; simpl; eauto.
  - intros body' g1 Hinit Hnode Hbody.
    pose proof (@transformAny_not_Null _ _ _ _ Hbody Hnode) as Hnode'.
    unfold transformForInStatement, bind.
    rewrite Hbody, (@statementsOf_inlined _ g1 Hnode').
    destruct initializer; try discriminate; try reflexivity; congruence.
Qed.

Lemma transformForInStatement_invalid_left_hand_side_witness :
  transformForInStatement transformAny Samples.for_member 0
  = (Throw InvalidLeftHandSide, 4).
Proof.
  destruct (@transformForInStatement_invalid_left_hand_side
              (MemberExpression (IdentifierExpression "o") "k")
              (IdentifierExpression "c") (Block []) 0) as [_ Hthrows].
  - reflexivity.
  - apply (Hthrows (Block []) 0); (reflexivity || discriminate).
Defined.

(** ** What the pass does not enter *)

Lemma subtree_in t child tree :
  In child (children tree) -> subtree t child -> subtree t tree.
Proof. intros. eapply subtree_below; eassumption. Qed.

(** [H : subtree t tree], for closed trees that differ at every node of
    [tree]. *)
Ltac no_subtree H :=
  inversion H; subst; clear H;
  match goal with
  | Hin : In _ (children _) |- _ =>
      simpl in Hin;
      repeat (destruct Hin as [Hin | Hin];
              [subst;
               match goal with
               | H' : subtree _ _ |- _ => no_subtree H'
               end|]);
      try contradiction
  | _ => idtac
  end.

(** Of [var k = e] in [for (var k = e in o) ;], the declaration type and
    the name are read, and nothing else: the declaration list is no node
    of the output, [e] is written nowhere in it, and the output is that
    of [for (var k in o) ;]. *)
Lemma initializer_dropped_counterexample :
  transformForInStatement transformAny Samples.for_var_k_e 0
  = (Ok (desugared "$__0" "$__1" "$__2" "$__3"
           (IdentifierExpression "o")
           (IdentifierExpression "k")
           (VariableStatement
              (VariableDeclarationList VAR
                 [VariableDeclaration (BindingIdentifier "k")
                    (keyAt "$__0" "$__3")]))
           []),
     4)
  /\ (forall R g,
         transformForInStatement transformAny Samples.for_var_k_e 0
         = (Ok R, g) ->
         ~ subtree Samples.var_k_e R /\
         ~ subtree (IdentifierExpression "e") R /\
         mentions "e" R = false)
  /\ transformForInStatement transformAny Samples.for_var_k_e 0
     = transformForInStatement transformAny
         (ForInStatement
            (VariableDeclarationList VAR
               [VariableDeclaration (BindingIdentifier "k") Null])
            (IdentifierExpression "o") (Block [])) 0.
Proof.
  split; [reflexivity|]. split; [|reflexivity].
  intros R g Hrun. injection Hrun as <- _.
  split; [|split; [|reflexivity]]; intros H; no_subtree H.
Qed.

(** C10 (amended): [transformForInStatement] transforms the loop body
    only: the identifiers it generates are the four that follow those of
    the body.  The collection expression is the initializer of the
    collection variable as it stands, so every node of it, a nested for-in
    statement included, is a node of the output.  A loop-variable position
    that is an identifier reference is in the output as it stands.  Of one
    that is a declaration list the output holds the declaration type and
    the name declared first, in the statement that declares the loop
    variable; the initializer of that declaration and the declarations
    that follow it are not read: the output is the same whatever they
    are. *)
Theorem transformForInStatement_copies_collection
        (initializer collection body R : ParseTree)
        (g g' : UniqueIdentifierGenerator.t) :
  transformForInStatement transformAny
    (ForInStatement initializer collection body) g = (Ok R, g') ->
  (exists body' g1,
      transformAny body g = (Ok body', g1) /\ g' = 4 + g1)
  /\ (exists first collectionName rest,
      R = Block
            (first
               :: VariableStatement
                    (VariableDeclarationList VAR
                       [VariableDeclaration
                          (BindingIdentifier collectionName) collection])
               :: rest))
  /\ (forall t, subtree t collection -> subtree t R)
  /\ (forall key, initializer = IdentifierExpression key ->
                  subtree initializer R)
  /\ (forall declarationType key init rest,
         initializer
         = VariableDeclarationList declarationType
             (VariableDeclaration (BindingIdentifier key) init :: rest) ->
         (exists lookup,
             subtree (VariableStatement
                        (VariableDeclarationList declarationType
                           [VariableDeclaration (BindingIdentifier key)
                              lookup]))
                     R)
         /\ forall init' rest',
             transformForInStatement transformAny
               (ForInStatement
                  (VariableDeclarationList declarationType
                     (VariableDeclaration (BindingIdentifier key) init'
                        :: rest'))
                  collection body) g
             = (Ok R, g')).
Proof.
  intros Hrun.
  assert (Hagain := Hrun).
  unfold transformForInStatement, bind in Hrun.
  destruct (transformAny body g) as [[body'|e] g1] eqn:Hbody; [|discriminate].
  destruct (statementsOf body' g1) as [[statements|e] g2] eqn:Hstatements;
    [|discriminate].
  assert (g2 = g1) as ->.
  { destruct body'; unfold statementsOf, ret, throw in Hstatements;
      congruence. }
  simpl in Hrun.
  destruct (originalKeyOf initializer _ _) as [[[KEY ASSIGN]|e] g3] eqn:Hkey;
    [|discriminate].
  assert (g3 = S (S (S (S g1)))) as ->.
  { unfold originalKeyOf, ret, throw in Hkey.
    repeat match type of Hkey with
           | context [match ?x with _ => _ end] =>
               destruct x; try discriminate
           end; congruence. }
  injection Hrun as <- <-.
  split; [|split; [|split; [|split]]].
  - exists body', g1. split; reflexivity.
  - do 3 eexists. reflexivity.
  - intros t Ht.
    eapply subtree_in; [right; left; reflexivity|].
    eapply subtree_in; [left; reflexivity|].
    eapply subtree_in; [left; reflexivity|].
    eapply subtree_in; [right; left; reflexivity|].
    exact Ht.
  - intros key ->. simpl in Hkey. injection Hkey as <- <-.
    eapply subtree_in; [do 3 right; left; reflexivity|].
    eapply subtree_in; [do 3 right; left; reflexivity|].
    eapply subtree_in; [left; reflexivity|].
    eapply subtree_in; [left; reflexivity|].
    eapply subtree_in; [left; reflexivity|].
    apply subtree_here.
  - intros declarationType key init rest ->. simpl in Hkey.
    injection Hkey as <- <-.
    split.
    + eexists.
      eapply subtree_in; [do 3 right; left; reflexivity|].
      eapply subtree_in; [do 3 right; left; reflexivity|].
      eapply subtree_in; [left; reflexivity|].
      apply subtree_here.
    + intros init' rest'. rewrite <- Hagain. reflexivity.
Qed.

(** The for-in statement inside the function passed in the collection
    expression of [for (k in g(function () { for (x in y) ; })) ;] is a
    node of the output, although the pass desugars that expression when
    it meets it elsewhere; and [for (var k = e in o) ;] gives what
    [for (var k in o) ;] gives. *)
Lemma transformForInStatement_copies_collection_witness :
  subtree Samples.inner_loop
          (desugared "$__0" "$__1" "$__2" "$__3"
             Samples.call_with_loop
             (IdentifierExpression "k")
             (ExpressionStatement
                (BinaryOperator (IdentifierExpression "k") EQUAL
                   (keyAt "$__0" "$__3")))
             [])
  /\ fst (transformAny Samples.call_with_loop 0)
     <> Ok Samples.call_with_loop
  /\ transformForInStatement transformAny
       (ForInStatement
          (VariableDeclarationList VAR
             [VariableDeclaration (BindingIdentifier "k") Null])
          (IdentifierExpression "o") (Block [])) 0
     = transformForInStatement transformAny Samples.for_var_k_e 0.
Proof.
  split; [|split; [discriminate|]].
  - refine (proj1 (proj2 (proj2
              (@transformForInStatement_copies_collection
                 (IdentifierExpression "k")
                 Samples.call_with_loop (Block []) _ 0 4 _)))
              _ _).
    + reflexivity.
    + unfold Samples.call_with_loop.
      eapply subtree_in; [right; left; reflexivity|].
      eapply subtree_in; [left; reflexivity|].
      eapply subtree_in; [right; left; reflexivity|].
      eapply subtree_in; [left; reflexivity|].
      apply subtree_here.
  - destruct (@transformForInStatement_copies_collection
                Samples.var_k_e (IdentifierExpression "o") (Block [])
                _ 0 4 eq_refl) as (_ & _ & _ & _ & Hlist).
    destruct (Hlist VAR "k" (IdentifierExpression "e") [] eq_refl)
      as [_ Hsame].
    rewrite (Hsame Null (@nil ParseTree)). reflexivity.
Defined.

End ForInTransformPassFacts.

(* ================================================================== *)
(** * Properties of RuntimeInliner *)

Module RuntimeInlinerFacts.
Import UniqueIdentifierGenerator RuntimeInliner.
Unset Implicit Arguments.

(** ** The map *)

Lemma has_In name map : has name map = true <-> In name (keys map).
Proof.
  unfold has, keys. rewrite existsb_exists, in_map_iff. split.
  - intros [entry [Hin Heq]]. apply String.eqb_eq in Heq.
    exists entry. auto.
  - intros [entry [Heq Hin]]. exists entry. subst.
    split; [assumption | apply String.eqb_refl].
Qed.

Lemma has_lookup name map :
  has name map = true <-> exists item, lookup name map = Some item.
Proof.
  induction map as [|[key item] map IH]; simpl.
  - split; [discriminate | intros [? ?]; discriminate].
  - destruct (String.eqb name key); simpl; [|exact IH].
    split; eauto.
Qed.

Lemma lookup_absent name map :
  has name map = false -> lookup name map = None.
Proof.
  intros Habs. destruct (lookup name map) eqn:E; [|reflexivity].
  assert (has name map = true) by (apply has_lookup; eauto). congruence.
Qed.

Lemma lookup_set name item x map :
  lookup x (set name item map) =
  if String.eqb x name then Some item else lookup x map.
Proof.
  induction map as [|[key old] map IH]; simpl.
  - reflexivity.
  - destruct (String.eqb name key) eqn:Hkey; simpl.
    + apply String.eqb_eq in Hkey. subst key.
      now destruct (String.eqb x name).
    + rewrite IH. destruct (String.eqb x key) eqn:Hx; [|reflexivity].
      apply String.eqb_eq in Hx. subst key.
      rewrite String.eqb_sym in Hkey. now rewrite Hkey.
Qed.

Lemma has_set name item x map :
  has x (set name item map) = String.eqb x name || has x map.
Proof.
  induction map as [|[key old] map IH]; simpl.
  - now rewrite orb_false_r.
  - destruct (String.eqb name key) eqn:Hkey; simpl.
    + apply String.eqb_eq in Hkey. subst key.
      now destruct (String.eqb x name).
    + rewrite IH. now destruct (String.eqb x key), (String.eqb x name).
Qed.

Lemma keys_set name item map :
  keys (set name item map) =
  if has name map then keys map else keys map ++ [name].
Proof.
  induction map as [|[key old] map IH]; simpl.
  - reflexivity.
  - destruct (String.eqb name key) eqn:Hkey; simpl; [reflexivity|].
    fold (keys (set name item map)). rewrite IH.
    now destruct (has name map).
Qed.

Lemma NoDup_keys_set name item map :
  NoDup (keys map) -> NoDup (keys (set name item map)).
Proof.
  intros Hnodup. rewrite keys_set.
  destruct (has name map) eqn:Hhas; [assumption|].
  apply NoDup_app; [assumption | repeat constructor; simpl; tauto|].
  intros x Hx [<- | []]. apply has_In in Hx. congruence.
Qed.

(** ** Placeholders *)

Lemma toObject_source_plain :
  forallb isLit (placeholders toObject_source) = true.
Proof. reflexivity. Qed.

Lemma replace_ext (S : Type) (f f' : string -> M S string) pieces s :
  (forall name s, f name s = f' name s) ->
  replace f pieces s = replace f' pieces s.
Proof.
  intros Hext. revert s.
  induction pieces as [|[c|name] pieces IH]; intros s; simpl.
  - reflexivity.
  - unfold bind. now rewrite IH.
  - unfold bind. rewrite Hext.
    destruct (f' name s) as [[text|e] s1]; [|reflexivity].
    now rewrite IH.
Qed.

Lemma replace_plain (S : Type) (f f' : string -> M S string) pieces s :
  forallb isLit pieces = true ->
  replace f pieces s = replace f' pieces s /\
  exists text, replace f pieces s = (Ok text, s).
Proof.
  induction pieces as [|[c|name] pieces IH]; simpl; intros Hplain.
  - split; [reflexivity | now exists EmptyString].
  - destruct (IH Hplain) as [Heq [text Hrun]].
    unfold bind. rewrite <- Heq, Hrun. split; [reflexivity|].
    now exists (String c text).
  - discriminate.
Qed.

Lemma replace_Lit (S : Type) (f : string -> M S string) c pieces s :
  replace f (Lit c :: pieces) s =
  (rest <- replace f pieces ;; ret (String c rest)) s.
Proof. reflexivity. Qed.

Lemma replace_Hole (S : Type) (f : string -> M S string) name pieces s :
  replace f (Hole name :: pieces) s =
  (text <- f name ;; rest <- replace f pieces ;; ret (text ++ rest)%string) s.
Proof. reflexivity. Qed.

(** What holds between the states before and after each call of the
    callback holds between the states before and after [replace]. *)
Lemma replace_invariant (S : Type) (R : S -> S -> Prop)
      (f : string -> M S string) pieces :
  (forall s, R s s) ->
  (forall s1 s2 s3, R s1 s2 -> R s2 s3 -> R s1 s3) ->
  (forall name s r s', f name s = (r, s') -> R s s') ->
  forall s r s', replace f pieces s = (r, s') -> R s s'.
Proof.
  intros Hrefl Htrans Hf.
  induction pieces as [|[c|name] pieces IH]; simpl; intros s r s' Hrun.
  - injection Hrun as _ <-. apply Hrefl.
  - unfold bind in Hrun.
    destruct (replace f pieces s) as [[rest|e] s1] eqn:Hrest;
      injection Hrun as _ <-; eapply IH; eassumption.
  - unfold bind in Hrun.
    destruct (f name s) as [[text|e] s1] eqn:Hname.
    + destruct (replace f pieces s1) as [[rest|e] s2] eqn:Hrest;
        injection Hrun as _ <-;
        (eapply Htrans; [eapply Hf | eapply IH]; eassumption).
    + injection Hrun as _ <-. eapply Hf; eassumption.
Qed.

Section Methods.
Variable parse : string -> string -> ParseTree.
Variable inherits : string -> bool.

Lemma register_within_S fuel name source this :
  register_within parse inherits (S fuel) name source this =
  if has name this.(map_) then (Ok tt, this)
  else
    match source with
    | Str text =>
        (source' <- replace (callback inherits
                               (register_within parse inherits fuel))
                            (placeholders text) ;;
         uid <- generateUniqueIdentifier ;;
         setItem name {| expression := parse source' name;
                         uid := uid;
                         inserted := false |}) this
    | _ => (Throw TypeError, this)
    end.
Proof.
  simpl. destruct (has name (map_ this)); [reflexivity|].
  destruct source; reflexivity.
Qed.

Lemma sharedAt_Str name text :
  sharedAt inherits name = Str text -> text = toObject_source.
Proof.
  unfold sharedAt.
  destruct (String.eqb name "toObject"); [congruence|].
  destruct (inherits name); discriminate.
Qed.

(** ** The recursion of [register] *)

(** Registering a shared helper does not call [register] again. *)
Lemma register_shared_flat fuel name this :
  register_within parse inherits (S fuel) name (sharedAt inherits name) this =
  register_within parse inherits 1 name (sharedAt inherits name) this.
Proof.
  rewrite !register_within_S.
  destruct (has name (map_ this)); [reflexivity|].
  destruct (sharedAt inherits name) as [|text|] eqn:Hshared; try reflexivity.
  apply sharedAt_Str in Hshared. subst text.
  unfold bind.
  destruct (replace_plain State
              (callback inherits (register_within parse inherits fuel))
              (callback inherits (register_within parse inherits 0))
              (placeholders toObject_source) this
              toObject_source_plain) as [-> _].
  reflexivity.
Qed.

Lemma callback_flat fuel name this :
  callback inherits (register_within parse inherits (S fuel)) name this =
  callback inherits (register_within parse inherits 1) name this.
Proof.
  unfold callback, bind.
  destruct (inShared inherits name); [|reflexivity].
  now rewrite register_shared_flat.
Qed.

(** More fuel than [register] has changes nothing. *)
Lemma register_within_enough fuel name source this :
  register_within parse inherits (2 + fuel) name source this =
  register parse inherits name source this.
Proof.
  unfold register. change (2 + fuel) with (S (S fuel)).
  rewrite !register_within_S.
  destruct (has name (map_ this)); [reflexivity|].
  destruct source as [|text|]; try reflexivity.
  unfold bind.
  rewrite (replace_ext State
             (callback inherits (register_within parse inherits (S fuel)))
             (callback inherits (register_within parse inherits 1)));
    [reflexivity|].
  intros. apply callback_flat.
Qed.

(** ** What a registration does to the registry *)

Section Preserved.
(** A relation between an earlier and a later state that generating an
    identifier and registering a shared helper maintain. *)
Variable R : State -> State -> Prop.
Hypothesis R_refl : forall s, R s s.
Hypothesis R_trans : forall s1 s2 s3, R s1 s2 -> R s2 s3 -> R s1 s3.
Hypothesis R_generate : forall s, R s (snd (generateUniqueIdentifier s)).
Hypothesis R_shared : forall name item s,
    inShared inherits name = true -> R s (snd (setItem name item s)).

Lemma getAsString_state name s r s' :
  getAsString name s = (r, s') -> s' = s.
Proof.
  unfold getAsString. destruct (lookup name (map_ s)); congruence.
Qed.

Lemma callback_preserves_from (registerShared : string -> Value -> M State unit) :
  (forall name source s r s',
      registerShared name source s = (r, s') ->
      R s s' \/
      (r = Ok tt /\
       exists s1 item, R s s1 /\ s' = snd (setItem name item s1))) ->
  forall name s r s',
    callback inherits registerShared name s = (r, s') -> R s s'.
Proof.
  intros Hreg name s r s' Hrun. unfold callback, bind in Hrun.
  destruct (inShared inherits name) eqn:Hshared.
  - destruct (registerShared name (sharedAt inherits name) s)
      as [[[]|e] s1] eqn:Hcall.
    + apply getAsString_state in Hrun. subst s'.
      apply Hreg in Hcall.
      destruct Hcall as [HR | [_ (s0 & item & HR & ->)]]; [assumption|].
      eapply R_trans; [exact HR | now apply R_shared].
    + injection Hrun as _ <-. apply Hreg in Hcall.
      destruct Hcall as [HR | [Hok _]]; [assumption | discriminate].
  - simpl in Hrun. apply getAsString_state in Hrun. subst s'. apply R_refl.
Qed.

Lemma register_within_preserves fuel :
  forall name source s r s',
    register_within parse inherits fuel name source s = (r, s') ->
    R s s' \/
    (r = Ok tt /\
     exists s1 item, R s s1 /\ s' = snd (setItem name item s1)).
Proof.
  induction fuel as [|fuel IH]; intros name source s r s' Hrun.
  - injection Hrun as _ <-. left. apply R_refl.
  - rewrite register_within_S in Hrun.
    destruct (has name (map_ s)).
    { injection Hrun as _ <-. left. apply R_refl. }
    destruct source as [|text|];
      try (injection Hrun as _ <-; left; apply R_refl).
    unfold bind in Hrun.
    destruct (replace _ _ s) as [[source'|e] s1] eqn:Hreplace.
    + assert (HR : R s s1).
      { eapply (replace_invariant State R); try eassumption.
        apply callback_preserves_from. exact IH. }
      simpl in Hrun. injection Hrun as <- <-.
      right. split; [reflexivity|].
      exists (snd (generateUniqueIdentifier s1)).
      exists {| expression := parse source' name;
                uid := identifier (identifierGenerator s1);
                inserted := false |}.
      split; [|reflexivity].
      eapply R_trans; [exact HR | apply R_generate].
    + injection Hrun as _ <-. left.
      eapply (replace_invariant State R); try eassumption.
      apply callback_preserves_from. exact IH.
Qed.

Lemma callback_preserves fuel name s r s' :
  callback inherits (register_within parse inherits fuel) name s = (r, s') ->
  R s s'.
Proof.
  apply callback_preserves_from. apply register_within_preserves.
Qed.
End Preserved.

(** The names of the registry after a call are those before it, shared
    helpers, and the name that was registered. *)
Lemma register_within_grows fuel name source s r s' x :
  register_within parse inherits fuel name source s = (r, s') ->
  has x (map_ s') = true ->
  has x (map_ s) = true \/ inShared inherits x = true \/
  (x = name /\ r = Ok tt).
Proof.
  intros Hrun Hx.
  apply (register_within_preserves
           (fun s s' => has x (map_ s') = true ->
                        has x (map_ s) = true \/ inShared inherits x = true))
    in Hrun.
  - destruct Hrun as [HR | [-> (s1 & item & HR & ->)]]; [tauto|].
    simpl in Hx. rewrite has_set in Hx. apply orb_true_iff in Hx.
    destruct Hx as [Hx | Hx]; [apply String.eqb_eq in Hx | ]; tauto.
  - tauto.
  - intros s1 s2 s3 H12 H23 H3. apply H23 in H3. tauto.
  - intros s0. unfold generateUniqueIdentifier. simpl. tauto.
  - intros q item s0 Hq. simpl. rewrite has_set.
    intros H. apply orb_true_iff in H.
    destruct H as [H | H]; [apply String.eqb_eq in H; subst|]; tauto.
Qed.

Lemma callback_grows fuel name s r s' x :
  callback inherits (register_within parse inherits fuel) name s = (r, s') ->
  has x (map_ s') = true ->
  has x (map_ s) = true \/ inShared inherits x = true.
Proof.
  apply (callback_preserves
           (fun s s' => has x (map_ s') = true ->
                        has x (map_ s) = true \/ inShared inherits x = true)).
  - tauto.
  - intros s1 s2 s3 H12 H23 H3. apply H23 in H3. tauto.
  - intros s0. unfold generateUniqueIdentifier. simpl. tauto.
  - intros q item s0 Hq. simpl. rewrite has_set.
    intros H. apply orb_true_iff in H.
    destruct H as [H | H]; [apply String.eqb_eq in H; subst|]; tauto.
Qed.

(** A registered name stays registered. *)
Lemma register_within_keeps fuel name source s r s' x :
  register_within parse inherits fuel name source s = (r, s') ->
  has x (map_ s) = true -> has x (map_ s') = true.
Proof.
  intros Hrun Hx.
  apply (register_within_preserves
           (fun s s' => has x (map_ s) = true -> has x (map_ s') = true))
    in Hrun.
  - destruct Hrun as [HR | [_ (s1 & item & HR & ->)]]; [tauto|].
    simpl. rewrite has_set, HR by assumption. apply orb_true_r.
  - tauto.
  - tauto.
  - intros s0. unfold generateUniqueIdentifier. simpl. tauto.
  - intros q item s0 _ H. simpl. rewrite has_set, H. apply orb_true_r.
Qed.

Lemma callback_keeps fuel name s r s' x :
  callback inherits (register_within parse inherits fuel) name s = (r, s') ->
  has x (map_ s) = true -> has x (map_ s') = true.
Proof.
  apply (callback_preserves
           (fun s s' => has x (map_ s) = true -> has x (map_ s') = true)).
  - tauto.
  - tauto.
  - intros s0. unfold generateUniqueIdentifier. simpl. tauto.
  - intros q item s0 _ H. simpl. rewrite has_set, H. apply orb_true_r.
Qed.

(** The registry holds one entry for a name at most. *)
Lemma register_within_NoDup fuel name source s r s' :
  register_within parse inherits fuel name source s = (r, s') ->
  NoDup (keys (map_ s)) -> NoDup (keys (map_ s')).
Proof.
  intros Hrun Hs.
  apply (register_within_preserves
           (fun s s' => NoDup (keys (map_ s)) -> NoDup (keys (map_ s'))))
    in Hrun.
  - destruct Hrun as [HR | [_ (s1 & item & HR & ->)]]; [tauto|].
    simpl. apply NoDup_keys_set. tauto.
  - tauto.
  - tauto.
  - intros s0. unfold generateUniqueIdentifier. simpl. tauto.
  - intros q item s0 _ H. simpl. now apply NoDup_keys_set.
Qed.

(** ** What [register] throws *)

Lemma register_shared_throws name s e s' :
  register_within parse inherits 1 name (sharedAt inherits name) s
  = (Throw e, s') ->
  e = TypeError.
Proof.
  rewrite register_within_S.
  destruct (has name (map_ s)); [discriminate|].
  destruct (sharedAt inherits name) as [|text|] eqn:Hshared;
    try congruence.
  apply sharedAt_Str in Hshared. subst text.
  unfold bind.
  destruct (replace_plain State
              (callback inherits (register_within parse inherits 0))
              (callback inherits (register_within parse inherits 0))
              (placeholders toObject_source) s
              toObject_source_plain) as [_ [text ->]].
  discriminate.
Qed.

Lemma callback_throws name s e s' :
  callback inherits (register_within parse inherits 1) name s = (Throw e, s') ->
  e = TypeError.
Proof.
  unfold callback, bind, getAsString.
  destruct (inShared inherits name).
  - destruct (register_within parse inherits 1 name _ s)
      as [[[]|e1] s1] eqn:Hcall.
    + destruct (lookup name (map_ s1)); congruence.
    + intros H. injection H as <- _.
      eapply register_shared_throws; eassumption.
  - simpl. destruct (lookup name (map_ s)); congruence.
Qed.

Lemma replace_throws pieces : forall s e s',
  replace (callback inherits (register_within parse inherits 1)) pieces s
  = (Throw e, s') ->
  e = TypeError.
Proof.
  induction pieces as [|[c|name] pieces IH]; simpl; intros s e s' Hrun.
  - discriminate.
  - unfold bind in Hrun.
    destruct (replace _ pieces s) as [[rest|e1] s1] eqn:Hrest;
      [discriminate|].
    injection Hrun as <- _. eapply IH; eassumption.
  - unfold bind in Hrun.
    destruct (callback _ _ name s) as [[text|e1] s1] eqn:Hname.
    + destruct (replace _ pieces s1) as [[rest|e2] s2] eqn:Hrest;
        [discriminate|].
      injection Hrun as <- _. eapply IH; eassumption.
    + injection Hrun as <- _. eapply callback_throws; eassumption.
Qed.

(** [register] does not run out of fuel: what it throws is a
    [TypeError]. *)
Lemma register_throws name source s e s' :
  register parse inherits name source s = (Throw e, s') -> e = TypeError.
Proof.
  unfold register. rewrite register_within_S.
  destruct (has name (map_ s)); [discriminate|].
  destruct source as [|text|]; try congruence.
  unfold bind.
  destruct (replace _ _ s) as [[source'|e1] s1] eqn:Hreplace;
    [discriminate|].
  intros H. injection H as <- _. eapply replace_throws; eassumption.
Qed.

(** ** A registration that completes *)



(** ** Placeholders of helpers that are not known *)

Lemma replace_unknown p pieces :
  In (Hole p) pieces -> inShared inherits p = false ->
  forall s, has p (map_ s) = false ->
  exists s',
    replace (callback inherits (register_within parse inherits 1)) pieces s
    = (Throw TypeError, s') /\
    has p (map_ s') = false.
Proof.
  intros Hin Hp.
  induction pieces as [|[c|name] pieces IH]; intros s Hs.
  - destruct Hin.
  - destruct Hin as [Hin | Hin]; [discriminate|].
    destruct (IH Hin s Hs) as [s' [Hrun Hs']].
    exists s'. rewrite replace_Lit. unfold bind. now rewrite Hrun.
  - rewrite replace_Hole. unfold bind.
    destruct (callback _ _ name s) as [[text|e] s1] eqn:Hname.
    + assert (Hs1 : has p (map_ s1) = false).
      { destruct (has p (map_ s1)) eqn:E; [|reflexivity].
        destruct (callback_grows _ _ _ _ _ p Hname E); congruence. }
      destruct Hin as [Hin | Hin].
      * injection Hin as ->.
        unfold callback, bind, getAsString in Hname. rewrite Hp in Hname.
        simpl in Hname. rewrite (lookup_absent _ _ Hs) in Hname.
        discriminate.
      * destruct (IH Hin s1 Hs1) as [s' [Hrun Hs']].
        exists s'. now rewrite Hrun.
    + exists s1. split.
      * now rewrite (callback_throws _ _ _ _ Hname).
      * destruct (has p (map_ s1)) eqn:E; [|reflexivity].
        destruct (callback_grows _ _ _ _ _ p Hname E); congruence.
Qed.

Lemma replace_grows pieces s r s' x :
  replace (callback inherits (register_within parse inherits 1)) pieces s
  = (r, s') ->
  has x (map_ s') = true ->
  has x (map_ s) = true \/ inShared inherits x = true.
Proof.
  apply (replace_invariant State
           (fun s s' => has x (map_ s') = true ->
                        has x (map_ s) = true \/ inShared inherits x = true)).
  - tauto.
  - intros s1 s2 s3 H12 H23 H3. apply H23 in H3. tauto.
  - intros name s0 r0 s0'. apply callback_grows.
Qed.

Lemma callback_registered fuel name s text s' :
  callback inherits (register_within parse inherits fuel) name s
  = (Ok text, s') ->
  has name (map_ s') = true.
Proof.
  unfold callback, bind. intros Hrun.
  assert (Hget : forall s0, getAsString name s0 = (Ok text, s') ->
                            has name (map_ s') = true).
  { intros s0. unfold getAsString.
    destruct (lookup name (map_ s0)) as [item|] eqn:Hlookup; [|discriminate].
    intros H. injection H as _ <-. apply has_lookup. eauto. }
  destruct (inShared inherits name).
  - destruct (register_within parse inherits fuel name _ s) as [[[]|e] s0];
      [eauto | discriminate].
  - simpl in Hrun. eauto.
Qed.

(** When [replace] returns, every placeholder names a registered helper. *)
Lemma replace_known p pieces :
  In (Hole p) pieces ->
  forall s text s',
    replace (callback inherits (register_within parse inherits 1)) pieces s
    = (Ok text, s') ->
    has p (map_ s') = true.
Proof.
  intros Hin.
  induction pieces as [|[c|name] pieces IH]; intros s text s' Hrun.
  - destruct Hin.
  - destruct Hin as [Hin | Hin]; [discriminate|].
    rewrite replace_Lit in Hrun. unfold bind in Hrun.
    destruct (replace _ pieces s) as [[rest|e] s1] eqn:Hrest;
      [|discriminate].
    injection Hrun as _ <-. eapply IH; eassumption.
  - rewrite replace_Hole in Hrun. unfold bind in Hrun.
    destruct (callback _ _ name s) as [[t|e] s1] eqn:Hname; [|discriminate].
    destruct (replace _ pieces s1) as [[rest|e] s2] eqn:Hrest;
      [|discriminate].
    injection Hrun as _ <-.
    destruct Hin as [Hin | Hin]; [|eapply IH; eassumption].
    injection Hin as ->.
    apply callback_registered in Hname. revert Hname.
    apply (replace_invariant State
             (fun s s' => has p (map_ s) = true -> has p (map_ s') = true)
             (callback inherits (register_within parse inherits 1)) pieces)
      with (r := Ok rest); try tauto.
    intros name0 s0 r0 s0'. apply callback_keeps.
Qed.

(** ** Finalization *)

Lemma lookup_keys name map item :
  lookup name map = Some item -> In name (keys map).
Proof.
  intros Hlookup. apply has_In. apply has_lookup. eauto.
Qed.

Lemma keys_markInserted map name :
  keys (markInserted map name) = keys map.
Proof.
  unfold markInserted.
  destruct (lookup name map) as [item|] eqn:Hlookup; [|reflexivity].
  rewrite keys_set.
  assert (has name map = true) as -> by (apply has_lookup; eauto).
  reflexivity.
Qed.


Lemma keys_fold_markInserted names : forall map,
  keys (fold_left markInserted names map) = keys map.
Proof.
  induction names as [|name names IH]; intros map; simpl; [reflexivity|].
  now rewrite IH, keys_markInserted.
Qed.




Lemma pending_entry map name :
  In name (pending map) ->
  exists item,
    lookup name map = Some item /\ inserted item = false /\
    declarationOf map name
    = VariableDeclaration (BindingIdentifier (uid item)) (expression item).
Proof.
  unfold pending, notInserted, declarationOf. rewrite filter_In.
  intros [_ Hnot].
  destruct (lookup name map) as [item|]; [|discriminate].
  exists item. apply negb_true_iff in Hnot. auto.
Qed.

Lemma nothing_pending map name item :
  pending map = [] -> lookup name map = Some item -> inserted item = true.
Proof.
  intros Hnone Hlookup.
  destruct (inserted item) eqn:Hitem; [reflexivity|].
  assert (Hin : In name (pending map)).
  { apply filter_In. split; [eapply lookup_keys; eassumption|].
    unfold notInserted. now rewrite Hlookup, Hitem. }
  rewrite Hnone in Hin. destruct Hin.
Qed.

Lemma transformProgram_unfold tree this :
  transformProgram tree this =
  match pending (map_ this) with
  | [] => (Ok tree, this)
  | _ :: _ =>
      (match programElementsOf tree with
       | Ok elements =>
           Ok (Program
                 (VariableStatement
                    (VariableDeclarationList VAR
                       (map (declarationOf (map_ this))
                            (pending (map_ this))))
                    :: elements))
       | Throw error => Throw error
       end,
       {| identifierGenerator := identifierGenerator this;
          map_ := fold_left markInserted (pending (map_ this)) (map_ this) |})
  end.
Proof.
  unfold transformProgram, pending.
  destruct this as [g map]. cbn [map_ identifierGenerator].
  destruct (keys map) as [|key keys'] eqn:Hkeys; [reflexivity|].
  change (Nat.eqb (List.length (key :: keys')) 0) with false. cbv iota.
  destruct (filter (notInserted map) (key :: keys')) as [|name names];
    [reflexivity|].
  destruct (programElementsOf tree); reflexivity.
Qed.


(** With entries to insert and no program to put them in, the entries are
    marked and reading the elements of [null] throws. *)
Lemma transformProgram_null this :
  pending (map_ this) <> [] ->
  transformProgram Null this
  = (Throw TypeError,
     {| identifierGenerator := identifierGenerator this;
        map_ := fold_left markInserted (pending (map_ this)) (map_ this) |}).
Proof.
  intros Hpending. rewrite transformProgram_unfold.
  destruct (pending (map_ this)); [congruence | reflexivity].
Qed.


(** ** One entry for a name *)

Lemma get_NoDup name opt_source s r s' :
  get parse inherits name opt_source s = (r, s') ->
  NoDup (keys (map_ s)) -> NoDup (keys (map_ s')).
Proof.
  unfold get. intros Hrun Hs.
  assert (Hlast : forall s0 r0 s0',
             getAsIdentifierExpression name s0 = (r0, s0') -> s0' = s0).
  { intros s0 r0 s0'. unfold getAsIdentifierExpression.
    destruct (lookup name (map_ s0)); congruence. }
  unfold bind at 1 in Hrun.
  destruct (has name (map_ s)); simpl negb in Hrun; cbv iota in Hrun.
  - simpl in Hrun. apply Hlast in Hrun. now subst.
  - unfold bind at 1, assert in Hrun.
    destruct (truthy _).
    + simpl in Hrun.
      destruct (register parse inherits name _ s) as [[[]|e] s1] eqn:Hreg.
      * apply Hlast in Hrun. subst s1.
        eapply register_within_NoDup; eassumption.
      * injection Hrun as _ <-.
        eapply register_within_NoDup; eassumption.
    + simpl in Hrun. injection Hrun as _ <-. assumption.
Qed.

Lemma transformProgram_keys tree s r s' :
  transformProgram tree s = (r, s') -> keys (map_ s') = keys (map_ s).
Proof.
  rewrite transformProgram_unfold.
  destruct (pending (map_ s)) as [|name names];
    intros H; injection H as _ <-; [reflexivity|].
  exact (keys_fold_markInserted (name :: names) (map_ s)).
Qed.

(** ** Registering twice *)



(** ** Placeholders *)

(** C9: a placeholder [%p] in the source text of a helper that is being
    registered stands for a helper that is shared or registered already.
    If [p] is neither, [register] throws a [TypeError], reading the [uid] of
    an entry that does not exist: the call does not complete, and the
    registry has no entry of [p] afterwards, nor one of the helper unless
    its name is that of a shared helper.  If [register] returns, [p] is
    shared or was registered, and is registered then. *)
Theorem register_unknown_placeholder
        (name text p : string) (this : State) :
  has name (map_ this) = false ->
  In (Hole p) (placeholders text) ->
  (inShared inherits p = false -> has p (map_ this) = false ->
   exists this',
     register parse inherits name (Str text) this = (Throw TypeError, this') /\
     has p (map_ this') = false /\
     (inShared inherits name = false -> has name (map_ this') = false)) /\
  (forall this',
      register parse inherits name (Str text) this = (Ok tt, this') ->
      (inShared inherits p = true \/ has p (map_ this) = true) /\
      has p (map_ this') = true).
Proof.
  intros Hnew Hin.
  assert (Hfails :
            inShared inherits p = false -> has p (map_ this) = false ->
            exists this',
              register parse inherits name (Str text) this
              = (Throw TypeError, this') /\
              has p (map_ this') = false /\
              (inShared inherits name = false ->
               has name (map_ this') = false)).
  { intros Hp Hthis.
    destruct (replace_unknown p _ Hin Hp this Hthis) as [this' [Hrun Hp']].
    exists this'. unfold register. rewrite register_within_S, Hnew.
    unfold bind. rewrite Hrun. split; [reflexivity|]. split; [assumption|].
    intros Hname. destruct (has name (map_ this')) eqn:E; [|reflexivity].
    destruct (replace_grows _ _ _ _ name Hrun E); congruence. }
  split; [exact Hfails|].
  intros this' Hrun. split.
  - destruct (inShared inherits p) eqn:Hp; [auto|].
    destruct (has p (map_ this)) eqn:Hthis; [auto|].
    destruct (Hfails eq_refl eq_refl) as [this'' [Hthrows _]]. congruence.
  - unfold register in Hrun. rewrite register_within_S, Hnew in Hrun.
    unfold bind in Hrun.
    destruct (replace _ _ this) as [[source'|e] s1] eqn:Hreplace;
      [|discriminate].
    apply (replace_known p _ Hin) in Hreplace.
    simpl in Hrun. injection Hrun as <-. simpl.
    rewrite has_set, Hreplace. apply orb_true_r.
Qed.

(** ** Asking for a helper *)

Lemma set_new name item map :
  has name map = false -> set name item map = map ++ [(name, item)].
Proof.
  induction map as [|[key old] map IH]; simpl; [reflexivity|].
  destruct (String.eqb name key); [discriminate|].
  intros Hnew. now rewrite IH.
Qed.

Lemma replace_toObject (f : string -> M State string) s :
  replace f (placeholders toObject_source) s = (Ok toObject_source, s).
Proof. reflexivity. Qed.

Lemma register_toObject this :
  has "toObject" (map_ this) = false ->
  register parse inherits "toObject" (Str toObject_source) this
  = (Ok tt,
     {| identifierGenerator := S (identifierGenerator this);
        map_ := set "toObject"
                    {| expression := parse toObject_source "toObject";
                       uid := identifier (identifierGenerator this);
                       inserted := false |}
                    (map_ this) |}).
Proof.
  intros Hnew. unfold register. rewrite register_within_S, Hnew.
  unfold bind. rewrite replace_toObject. reflexivity.
Qed.

Lemma getAsIdentifierExpression_returns name s tree s' :
  getAsIdentifierExpression name s = (Ok tree, s') ->
  s' = s /\
  exists item,
    lookup name (map_ s) = Some item /\
    tree = IdentifierExpression (uid item).
Proof.
  unfold getAsIdentifierExpression.
  destruct (lookup name (map_ s)) as [item|]; [|discriminate].
  intros H. injection H as <- <-. eauto.
Qed.

(** C6 (amended): for a name that is not registered, [get] registers the
    helper with the shared definition of the name when the name is in
    [shared], whether a source text is given or not, and with the source
    text it is given otherwise; with neither (an absent or empty source
    text for a name that is not in [shared]) the assertion fails and the
    registry is left as it was.  Whenever [get] returns, it returns the
    identifier expression of the unique identifier of the helper. *)
Theorem get_unregistered (name : string) (opt_source : Value) (this : State) :
  has name (map_ this) = false ->
  (inShared inherits name = true ->
   get parse inherits name opt_source this
   = (register parse inherits name (sharedAt inherits name) ;;;
      getAsIdentifierExpression name) this) /\
  (name = "toObject" ->
   get parse inherits name opt_source this
   = (Ok (IdentifierExpression (identifier (identifierGenerator this))),
      {| identifierGenerator := S (identifierGenerator this);
         map_ := map_ this ++
                 [(name,
                   {| expression := parse toObject_source name;
                      uid := identifier (identifierGenerator this);
                      inserted := false |})] |})) /\
  (inShared inherits name = false -> truthy opt_source = true ->
   get parse inherits name opt_source this
   = (register parse inherits name opt_source ;;;
      getAsIdentifierExpression name) this) /\
  (inShared inherits name = false -> truthy opt_source = false ->
   get parse inherits name opt_source this = (Throw AssertionFailed, this)) /\
  (forall tree this',
      get parse inherits name opt_source this = (Ok tree, this') ->
      exists item,
        lookup name (map_ this') = Some item /\
        tree = IdentifierExpression (uid item)).
Proof.
  intros Hnew.
  assert (Hshared : inShared inherits name = true ->
                    truthy (sharedAt inherits name) = true).
  { unfold inShared, sharedAt.
    destruct (String.eqb name "toObject"); [reflexivity|].
    simpl. now intros ->. }
  split; [|split; [|split; [|split]]].
  - intros Hin. unfold get. rewrite Hnew, Hin. simpl negb. cbv iota.
    unfold assert. rewrite (Hshared Hin). reflexivity.
  - intros ->. unfold get. rewrite Hnew. simpl negb. cbv iota.
    assert (inShared inherits "toObject" = true) as -> by reflexivity.
    assert (sharedAt inherits "toObject" = Str toObject_source) as ->
        by reflexivity.
    unfold assert. simpl truthy. cbv iota.
    unfold bind at 1. unfold bind at 1. unfold ret at 1.
    rewrite (register_toObject _ Hnew).
    unfold getAsIdentifierExpression. cbn [map_].
    rewrite lookup_set, String.eqb_refl.
    now rewrite (set_new _ _ _ Hnew).
  - intros Hout Hgiven. unfold get. rewrite Hnew, Hout. simpl negb. cbv iota.
    unfold assert. rewrite Hgiven. reflexivity.
  - intros Hout Hgiven. unfold get. rewrite Hnew, Hout. simpl negb. cbv iota.
    unfold assert. rewrite Hgiven. reflexivity.
  - intros tree this' Hget. unfold get in Hget.
    match type of Hget with
    | bind ?c _ _ = _ => set (first := c) in Hget
    end.
    unfold bind in Hget.
    destruct (first this) as [[[]|e] s1]; [|discriminate].
    apply getAsIdentifierExpression_returns in Hget.
    destruct Hget as [-> Hitem]. exact Hitem.
Qed.

End Methods.

(** ** The properties at work *)

Import RuntimeInliner.Samples.


(** [get("toObject", "0")] registers the shared definition of [toObject],
    not the source text ["0"] it is given. *)
Lemma get_prefers_shared_counterexample :
  has "toObject" (map_ (new 0)) = false /\
  get quote es5 "toObject" (Str "0") (new 0)
  = (Ok (IdentifierExpression "$__0"), withToObject) /\
  get quote es5 "toObject" (Str "0") (new 0)
  <> (register quote es5 "toObject" (Str "0") ;;;
      getAsIdentifierExpression "toObject") (new 0).
Proof.
  split; [reflexivity|]. split; [reflexivity|].
  intros H. vm_compute in H. discriminate H.
Qed.

Lemma get_unregistered_witness :
  get quote es5 "toObject" (Str "0") (new 0)
  = (Ok (IdentifierExpression "$__0"), withToObject) /\
  get quote es5 "f" (Str "0") (new 0)
  = (Ok (IdentifierExpression "$__0"),
     {| identifierGenerator := 1;
        map_ := [("f", {| expression := quote "0" "f";
                          uid := "$__0";
                          inserted := false |})] |}) /\
  get quote es5 "f" Undefined (new 0) = (Throw AssertionFailed, new 0).
Proof.
  split; [|split].
  - destruct (get_unregistered quote es5 "toObject" (Str "0") (new 0)
                eq_refl) as (_ & Hshared & _).
    exact (Hshared eq_refl).
  - destruct (get_unregistered quote es5 "f" (Str "0") (new 0)
                eq_refl) as (_ & _ & Hgiven & _).
    rewrite (Hgiven eq_refl eq_refl). reflexivity.
  - destruct (get_unregistered quote es5 "f" Undefined (new 0)
                eq_refl) as (_ & _ & _ & Hneither & _).
    exact (Hneither eq_refl eq_refl).
Defined.


(** [%x] names no helper: registering [f] with the source text
    [%toObject(%x)] registers [toObject] and throws.  With the source text
    [%toObject(x)], [toObject] is registered first and its identifier
    stands for the placeholder in the text that is parsed. *)
Lemma register_unknown_placeholder_witness :
  (exists this',
      register quote es5 "f" (Str "%toObject(%x)") (new 0)
      = (Throw TypeError, this') /\
      has "x" (map_ this') = false /\ has "f" (map_ this') = false) /\
  register quote es5 "f" (Str "%toObject(%x)") (new 0)
  = (Throw TypeError, withToObject) /\
  register quote es5 "f" (Str "%toObject(x)") (new 0)
  = (Ok tt,
     {| identifierGenerator := 2;
        map_ := map_ withToObject ++
                [("f", {| expression := quote "$__0(x)" "f";
                          uid := "$__1";
                          inserted := false |})] |}).
Proof.
  split; [|split; reflexivity].
  destruct (register_unknown_placeholder quote es5 "f" "%toObject(%x)" "x"
              (new 0) eq_refl) as [Hfails _].
  - right. right. left. reflexivity.
  - destruct (Hfails eq_refl eq_refl) as (this' & Hrun & Hx & Hf).
    exists this'. auto.
Defined.

End RuntimeInlinerFacts.

(* ================================================================== *)
(** * More about AlphaRenamer *)

Module AlphaRenamerMore.
Import PredefinedName AlphaRenamer AlphaRenamerFacts.

Lemma existsb_map_false (f : ParseTree -> ParseTree) (p : ParseTree -> bool) l :
  Forall (fun t => p (f t) = false) l -> existsb p (map f l) = false.
Proof.
  induction 1 as [|t l Ht _ IH]; simpl; [reflexivity|].
  now rewrite Ht, IH.
Qed.

Lemma identity_on_tree n tree :
  n <> THIS -> transformAny n n tree = tree.
Proof.
  intros Hn.
  induction tree as [tree IH] using ParseTree_children_ind.
  destruct tree;
    try (simpl in *; split_Forall; f_equal;
         solve [auto | apply Forall_map_id; assumption]).
  - rewrite transformAny_Block. destruct (inb n _); [reflexivity|].
    simpl in IH. f_equal. now apply Forall_map_id.
  - rewrite transformAny_IdentifierExpression.
    destruct (String.eqb n identifierToken) eqn:E; [|reflexivity].
    apply String.eqb_eq in E. now subst.
  - rewrite transformAny_ThisExpression.
    now rewrite (proj2 (String.eqb_neq _ _) Hn).
  - rewrite transformAny_FunctionDeclaration. cbv zeta.
    assert ((if isNamed n name then Some n else name) = name) as ->.
    { destruct name as [f|]; simpl; [|reflexivity].
      destruct (String.eqb n f) eqn:E; [|reflexivity].
      apply String.eqb_eq in E. now subst. }
    simpl in IH. split_Forall.
    match goal with
    | |- context [if ?c then _ else _] => destruct c
    end; [reflexivity | f_equal; assumption].
  - rewrite transformAny_Catch. simpl in IH. split_Forall.
    destruct (_ && _); [reflexivity | f_equal; assumption].
Qed.

(** X1: renaming a name to itself returns the tree as it is, for every
    name but ["this"]. *)
Theorem rename_to_itself (tree : ParseTree) (name : string) :
  name <> THIS -> rename tree name name = tree.
Proof.
  intros Hname. unfold rename. now apply identity_on_tree.
Qed.

Lemma rename_to_itself_witness :
  rename AlphaRenamerSamples.program_a "a" "a" = AlphaRenamerSamples.program_a
  /\ rename ThisExpression THIS THIS <> ThisExpression.
Proof.
  split; [|discriminate].
  apply rename_to_itself. discriminate.
Defined.

Lemma stops_at_binding o binding :
  negb (isPattern binding) && bindingIs o binding = true ->
  match binding with
  | BindingIdentifier y => String.eqb o y
  | _ => false
  end = true.
Proof.
  destruct binding; simpl; try discriminate; tauto.
Qed.

Lemma no_free_occurrence o n tree :
  o <> n -> occursFree o (transformAny o n tree) = false.
Proof.
  intros Hon. apply String.eqb_neq in Hon.
  induction tree as [tree IH] using ParseTree_children_ind.
  destruct tree;
    try reflexivity;
    try (simpl in *; split_Forall;
         repeat match goal with
                | H : occursFree _ _ = false |- _ => rewrite H; clear H
                end;
         solve [reflexivity | apply existsb_map_false; assumption]).
  - rewrite transformAny_Block. destruct (inb o _) eqn:Hbound.
    + simpl occursFree. simpl in Hbound. now rewrite Hbound.
    + simpl in IH. simpl occursFree.
      rewrite existsb_map_false by assumption. apply andb_false_r.
  - rewrite transformAny_IdentifierExpression.
    destruct (String.eqb o identifierToken) eqn:E; simpl; assumption.
  - rewrite transformAny_ThisExpression.
    destruct (String.eqb o THIS) eqn:E; simpl; assumption.
  - rewrite transformAny_FunctionDeclaration. cbv zeta.
    simpl in IH. split_Forall.
    match goal with
    | |- context [if ?c then _ else _] => destruct c eqn:Hstop
    end.
    + simpl occursFree. simpl in Hstop. now rewrite Hstop.
    + simpl occursFree.
      repeat match goal with
             | H : occursFree _ _ = false |- _ => rewrite H; clear H
             end.
      apply andb_false_r.
  - rewrite transformAny_Catch. simpl in IH. split_Forall.
    destruct (_ && _) eqn:Hstop.
    + apply stops_at_binding in Hstop. simpl occursFree. now rewrite Hstop.
    + simpl occursFree.
      repeat match goal with
             | H : occursFree _ _ = false |- _ => rewrite H; clear H
             end.
      apply andb_false_r.
Qed.

(** X2: after renaming [oldName] to another name, [oldName] does not occur
    free in the result: every identifier expression of that name (and every
    this-expression, for ["this"]) that no scope of the tree binds anew has
    been replaced. *)
Theorem rename_leaves_no_free_occurrence
        (tree : ParseTree) (oldName newName : string) :
  oldName <> newName ->
  occursFree oldName (rename tree oldName newName) = false.
Proof.
  intros Hnames. unfold rename. now apply no_free_occurrence.
Qed.

Lemma rename_leaves_no_free_occurrence_witness :
  occursFree "a" AlphaRenamerSamples.program_a = true /\
  occursFree "a" (rename AlphaRenamerSamples.program_a "a" "z") = false.
Proof.
  split; [reflexivity|].
  apply rename_leaves_no_free_occurrence. discriminate.
Defined.

(** X3: renaming a name that is written nowhere in the tree returns the
    tree as it is. *)
Theorem rename_of_absent_name (tree : ParseTree) (oldName newName : string) :
  mentions oldName tree = false -> rename tree oldName newName = tree.
Proof.
  intros Habsent. unfold rename. now apply rename_absent.
Qed.

Lemma rename_of_absent_name_witness :
  rename AlphaRenamerSamples.program_a "c" "z" = AlphaRenamerSamples.program_a.
Proof.
  apply rename_of_absent_name. reflexivity.
Defined.

Lemma variablesInBlock_kept o n tree :
  variablesInBlock (transformAny o n tree) = variablesInBlock tree.
Proof.
  destruct tree; try reflexivity.
  - rewrite transformAny_Block. destruct (inb o _) eqn:Hbound; [reflexivity|].
    apply variablesInBlock_rename. now apply inb_not_In.
  - rewrite transformAny_IdentifierExpression. now destruct (String.eqb o _).
  - rewrite transformAny_ThisExpression. now destruct (String.eqb o _).
  - rewrite transformAny_FunctionDeclaration. cbv zeta.
    now destruct (_ || _).
  - rewrite transformAny_Catch. now destruct (_ && _).
Qed.

Lemma variablesInFunction_kept o n tree :
  variablesInFunction (transformAny o n tree) = variablesInFunction tree.
Proof.
  destruct tree; try reflexivity.
  - rewrite transformAny_Block. now destruct (inb o _).
  - rewrite transformAny_IdentifierExpression. now destruct (String.eqb o _).
  - rewrite transformAny_ThisExpression. now destruct (String.eqb o _).
  - rewrite transformAny_FunctionDeclaration. cbv zeta.
    match goal with
    | |- context [if ?c then _ else _] => destruct c
    end; simpl; [reflexivity|].
    now rewrite parameterNames_rename, varDeclared_rename.
  - rewrite transformAny_Catch. now destruct (_ && _).
Qed.

(** X4: renaming never changes what a scope binds: the names bound
    directly in a block and the names bound directly in a function are
    those of the tree before the renaming, whatever the two names are.  A
    declaration of the old name keeps its name; only a function's own name
    is rewritten. *)
Theorem rename_keeps_bindings (tree : ParseTree) (oldName newName : string) :
  variablesInBlock (rename tree oldName newName) = variablesInBlock tree /\
  variablesInFunction (rename tree oldName newName)
  = variablesInFunction tree.
Proof.
  unfold rename. split.
  - apply variablesInBlock_kept.
  - apply variablesInFunction_kept.
Qed.

(** ** Renaming through a name that is new *)

Lemma map_through (f g h : ParseTree -> ParseTree) (p : ParseTree -> bool) l :
  Forall (fun t => p t = false -> g (f t) = h t) l ->
  existsb p l = false -> map g (map f l) = map h l.
Proof.
  induction 1 as [|t l Ht _ IH]; simpl; intros Habs; [reflexivity|].
  apply orb_false_iff in Habs. destruct Habs as [Ht' Hl].
  now rewrite Ht, IH.
Qed.

Section Through.
Variables a b c : string.
Hypothesis b_not_this : b <> THIS.
Hypothesis b_not_arguments : b <> ARGUMENTS.

Lemma rename_through tree :
  mentions b tree = false ->
  transformAny b c (transformAny a b tree) = transformAny a c tree.
Proof.
  induction tree as [tree IH] using ParseTree_children_ind.
  intros Habs.
  destruct tree;
    try (simpl in *; split_Forall; split_orb; f_equal;
         solve [auto | eapply map_through; eassumption]).
  - (* Block *)
    rewrite (transformAny_Block a b), (transformAny_Block a c).
    destruct (inb a _) eqn:Hbound.
    + now apply rename_absent.
    + apply inb_not_In in Hbound.
      rewrite transformAny_Block, variablesInBlock_rename by assumption.
      rewrite (@inb_absent b _ (Block statements)); trivial.
      * simpl in *. f_equal. eapply map_through; eassumption.
      * intros y. apply variablesInBlock_mentions.
  - (* IdentifierExpression *)
    rewrite (transformAny_IdentifierExpression a b),
      (transformAny_IdentifierExpression a c).
    simpl in Habs.
    destruct (String.eqb a identifierToken).
    + now rewrite transformAny_IdentifierExpression, String.eqb_refl.
    + rewrite transformAny_IdentifierExpression. now rewrite Habs.
  - (* ThisExpression *)
    rewrite (transformAny_ThisExpression a b),
      (transformAny_ThisExpression a c).
    destruct (String.eqb a THIS).
    + now rewrite transformAny_IdentifierExpression, String.eqb_refl.
    + rewrite transformAny_ThisExpression.
      now rewrite (proj2 (String.eqb_neq _ _) b_not_this).
  - (* FunctionDeclaration *)
    rename tree1 into params, tree2 into body.
    simpl in Habs, IH.
    apply orb_false_iff in Habs as [Habs Hbody].
    apply orb_false_iff in Habs as [Hfname Hparams].
    inversion IH as [|? ? IHparams IH']; subst; clear IH.
    inversion IH' as [|? ? IHbody _]; subst; clear IH'.
    rewrite (transformAny_FunctionDeclaration a b),
      (transformAny_FunctionDeclaration a c).
    cbv zeta. simpl variablesInFunction.
    set (name' := if isNamed a name then Some b else name).
    assert (Hname : (if isNamed b name' then Some c else name')
                    = (if isNamed a name then Some c else name)).
    { subst name'. destruct name as [f|]; simpl in *; [|reflexivity].
      destruct (String.eqb a f); simpl.
      - now rewrite String.eqb_refl.
      - now rewrite Hfname. }
    assert (Hb : forall p q,
               parameterNames p = parameterNames params ->
               varDeclared q = varDeclared body ->
               String.eqb b ARGUMENTS || String.eqb b THIS
               || inb b (parameterNames p ++ varDeclared q) = false).
    { intros p q Hp Hq.
      rewrite (proj2 (String.eqb_neq _ _) b_not_this),
        (proj2 (String.eqb_neq _ _) b_not_arguments).
      simpl. rewrite Hp, Hq.
      apply (@inb_absent b _ (FunctionDeclaration name params body)).
      - exact (fun y => @variablesInFunction_mentions y
                          (FunctionDeclaration name params body)).
      - simpl. now rewrite Hfname, Hparams, Hbody. }
    match goal with
    | |- context [if ?cond then _ else _] => destruct cond
    end.
    + rewrite transformAny_FunctionDeclaration. cbv zeta.
      rewrite Hname. simpl variablesInFunction.
      rewrite (Hb params body) by reflexivity.
      now rewrite !rename_absent.
    + rewrite transformAny_FunctionDeclaration. cbv zeta.
      rewrite Hname. simpl variablesInFunction.
      rewrite Hb
        by (apply parameterNames_rename || apply varDeclared_rename).
      f_equal; auto.
  - (* Catch *)
    rename tree1 into binding, tree2 into body.
    simpl in Habs, IH.
    apply orb_false_iff in Habs as [Hbinding Hbody].
    inversion IH as [|? ? IHbinding IH']; subst; clear IH.
    inversion IH' as [|? ? IHbody _]; subst; clear IH'.
    assert (Hb : bindingIs b binding = false).
    { destruct binding; simpl in *; congruence. }
    rewrite (transformAny_Catch a b), (transformAny_Catch a c).
    destruct (_ && _).
    + rewrite transformAny_Catch, Hb, andb_false_r.
      now rewrite !rename_absent.
    + rewrite transformAny_Catch, bindingIs_rename, Hb, andb_false_r.
      f_equal; auto.
Qed.
End Through.

(** X18: renames compose through a new name.  When [b] is written nowhere
    in the tree and is neither ["this"] nor ["arguments"], renaming [a] to
    [b] and then [b] to [c] is renaming [a] to [c]. *)
Theorem rename_through_new_name (tree : ParseTree) (a b c : string) :
  b <> THIS -> b <> ARGUMENTS ->
  mentions b tree = false ->
  rename (rename tree a b) b c = rename tree a c.
Proof.
  intros Hthis Harguments Habsent. unfold rename.
  now apply rename_through.
Qed.

Lemma rename_through_new_name_witness :
  rename (rename AlphaRenamerSamples.program_a "a" "z") "z" "w"
  = rename AlphaRenamerSamples.program_a "a" "w"
  /\ rename AlphaRenamerSamples.program_a "a" "w"
     <> AlphaRenamerSamples.program_a.
Proof.
  split; [|discriminate].
  apply rename_through_new_name; (discriminate || reflexivity).
Defined.

End AlphaRenamerMore.

(* ================================================================== *)
(** * More about ForInTransformPass *)

Module ForInTransformPassMore.
Import PredefinedName UniqueIdentifierGenerator ForInTransformPass.
Import AlphaRenamerFacts ForInTransformPassFacts.

Lemma mapM_unchanged (f : ParseTree -> Pass ParseTree) l :
  Forall (fun t => forall g, f t g = (Ok t, g)) l ->
  forall g, mapM f l g = (Ok l, g).
Proof.
  induction 1 as [|t l Ht _ IH]; intros g; simpl; [reflexivity|].
  unfold bind. rewrite Ht. unfold mapM in IH. now rewrite IH.
Qed.

Lemma list_sum_zero (c : ParseTree -> nat) l :
  list_sum (map c l) = 0 -> Forall (fun t => c t = 0) l.
Proof.
  induction l as [|t l IH]; simpl; intros Hsum; constructor.
  - lia.
  - apply IH. lia.
Qed.

Lemma transformAny_children_unchanged l :
  Forall (fun t => desugaredLoops t = 0 ->
                   forall g, transformAny t g = (Ok t, g)) l ->
  list_sum (map desugaredLoops l) = 0 ->
  forall g, mapM transformAny l g = (Ok l, g).
Proof.
  intros IH Hsum. apply mapM_unchanged.
  apply list_sum_zero in Hsum. revert Hsum.
  apply Forall_impl_Forall. exact IH.
Qed.

Lemma unchanged_without_loops tree :
  desugaredLoops tree = 0 -> forall g, transformAny tree g = (Ok tree, g).
Proof.
  induction tree as [tree IH] using ParseTree_children_ind.
  intros Hnone g.
  destruct tree; try discriminate;
    cbn [transformAny ParseTreeTransformerM.transformDefault];
    cbn [desugaredLoops children] in *; unfold bind, ret;
    try rewrite (transformAny_children_unchanged IH Hnone);
    split_Forall;
    repeat match goal with
           | H : _ -> forall g, transformAny ?t g = _ |- _ =>
               rewrite H by lia; clear H
           end;
    reflexivity.
Qed.

(** X5: a tree in which the pass meets no for-in statement comes back as
    it is, and no identifier is generated. *)
Theorem transformTree_without_loops
        (tree : ParseTree) (identifierGenerator : UniqueIdentifierGenerator.t) :
  desugaredLoops tree = 0 ->
  transformTree identifierGenerator tree = (Ok tree, identifierGenerator).
Proof.
  intros Hnone. unfold transformTree. now apply unchanged_without_loops.
Qed.

Lemma transformTree_without_loops_witness :
  transformTree 7 AlphaRenamerSamples.program_a
  = (Ok AlphaRenamerSamples.program_a, 7).
Proof.
  apply transformTree_without_loops. reflexivity.
Defined.

Lemma mapM_counted (f : ParseTree -> Pass ParseTree) (c : ParseTree -> nat) l :
  Forall (fun t => forall g R g', f t g = (Ok R, g') -> g' = g + 4 * c t) l ->
  forall g L g',
    mapM f l g = (Ok L, g') -> g' = g + 4 * list_sum (map c l).
Proof.
  induction 1 as [|t l Ht _ IH]; intros g L g' Hrun; simpl in Hrun.
  - injection Hrun as _ <-. simpl. lia.
  - unfold bind in Hrun.
    destruct (f t g) as [[R|e] g1] eqn:Hfirst; [|discriminate].
    apply Ht in Hfirst.
    match type of Hrun with
    | context [match ?c g1 with _ => _ end] =>
        destruct (c g1) as [[L'|e] g2] eqn:Hrest; [|discriminate]
    end.
    apply IH in Hrest. injection Hrun as _ <-. simpl. lia.
Qed.

Lemma identifiers_counted tree :
  forall g R g',
    transformAny tree g = (Ok R, g') -> g' = g + 4 * desugaredLoops tree.
Proof.
  induction tree as [tree IH] using ParseTree_children_ind.
  intros g R g' Hrun.
  destruct tree;
    cbn [transformAny ParseTreeTransformerM.transformDefault
         transformForInStatement] in Hrun;
    cbn [desugaredLoops children] in *;
    unfold bind, ret in Hrun;
    split_Forall; run; try discriminate;
    try (eapply mapM_counted; eassumption);
    repeat match goal with
           | IHt : forall g R g', transformAny ?t g = (Ok R, g') -> _,
             H : transformAny ?t _ = (Ok _, _) |- _ =>
               apply IHt in H; clear IHt
           end;
    try lia.
  (* a for-in statement *)
  unfold statementsOf, generateUniqueIdentifier, originalKeyOf,
    throw, ret in *.
  repeat match goal with
         | H : match ?x with _ => _ end _ = _ |- _ => destruct x
         | H : match ?x with _ => _ end = _ |- _ => destruct x
         | H : (_, _) = (_, _) |- _ => inversion H; clear H; subst
         end; try discriminate; lia.
Qed.

(** X6: when the pass returns, it has generated four identifiers for each
    for-in statement it has desugared, and no other. *)
Theorem transformTree_generates_four_per_loop
        (tree R : ParseTree) (g g' : UniqueIdentifierGenerator.t) :
  transformTree g tree = (Ok R, g') -> g' = g + 4 * desugaredLoops tree.
Proof.
  unfold transformTree. apply identifiers_counted.
Qed.

Lemma transformTree_generates_four_per_loop_witness :
  desugaredLoops Samples.nested_loops = 2 /\
  snd (transformTree 3 Samples.nested_loops) = 3 + 4 * 2.
Proof.
  split; [reflexivity|].
  apply (@transformTree_generates_four_per_loop
           Samples.nested_loops
           (match fst (transformTree 3 Samples.nested_loops) with
            | Ok R => R
            | Throw _ => Null
            end)).
  reflexivity.
Defined.

(** X7: a declaration list without a declaration in the loop-variable
    position makes [transformForInStatement] throw a [TypeError], reading
    [lvalue] of a declaration that is not there, once the body is
    transformed and the four identifiers are generated. *)
Theorem transformForInStatement_no_declaration
        (declarationType : TokenType) (collection body body' : ParseTree)
        (g g1 : UniqueIdentifierGenerator.t) :
  body <> Null ->
  transformAny body g = (Ok body', g1) ->
  transformForInStatement transformAny
    (ForInStatement (VariableDeclarationList declarationType [])
                    collection body) g
  = (Throw TypeError, 4 + g1).
Proof.
  intros Hnode Hbody.
  pose proof (@transformAny_not_Null _ _ _ _ Hbody Hnode) as Hnode'.
  unfold transformForInStatement, bind.
  rewrite Hbody, (@statementsOf_inlined _ g1 Hnode'). reflexivity.
Qed.

Lemma transformForInStatement_no_declaration_witness :
  transformForInStatement transformAny
    (ForInStatement (VariableDeclarationList VAR [])
                    (IdentifierExpression "o") (Block [])) 0
  = (Throw TypeError, 4).
Proof.
  apply (@transformForInStatement_no_declaration
           VAR (IdentifierExpression "o") (Block []) (Block []) 0 0).
  - discriminate.
  - reflexivity.
Defined.

(** X8: of a declaration list in the loop-variable position the pass
    reads the declaration type and the name the first declaration declares:
    the initializer of that declaration and the declarations after it do
    not reach the output.  [for (var k = e in o) s] is desugared as
    [for (var k in o) s] is. *)
Theorem transformForInStatement_reads_first_name
        (declarationType : TokenType) (key : string)
        (initializer collection body : ParseTree)
        (declarations : list ParseTree)
        (g : UniqueIdentifierGenerator.t) :
  transformForInStatement transformAny
    (ForInStatement
       (VariableDeclarationList declarationType
          (VariableDeclaration (BindingIdentifier key) initializer
             :: declarations))
       collection body) g
  = transformForInStatement transformAny
      (ForInStatement
         (VariableDeclarationList declarationType
            [VariableDeclaration (BindingIdentifier key) Null])
         collection body) g.
Proof.
  unfold transformForInStatement, bind.
  destruct (transformAny body g) as [[body'|e] g1]; [|reflexivity].
  destruct (statementsOf body' g1) as [[statements|e] g2]; reflexivity.
Qed.

(** X9: the pass is to run once.  The loop that collects the keys is a
    for-in statement itself, which the pass desugars when it meets it: what
    [transformForInStatement] returns, the pass does not return as it
    is. *)
Theorem transformTree_desugars_its_output
        (initializer collection body R : ParseTree)
        (g g' g2 : UniqueIdentifierGenerator.t) :
  transformForInStatement transformAny
    (ForInStatement initializer collection body) g = (Ok R, g') ->
  fst (transformTree g2 R) <> Ok R.
Proof.
  intros Hfirst.
  unfold transformForInStatement, bind in Hfirst.
  destruct (transformAny body g) as [[body'|e] g1]; [|discriminate].
  destruct (statementsOf body' g1) as [[statements|e] g3]; [|discriminate].
  simpl in Hfirst.
  destruct (originalKeyOf initializer _ _) as [[[KEY ASSIGN]|e] g4];
    [|discriminate].
  injection Hfirst as <- _.
  unfold transformTree.
  destruct (transformAny _ g2) as [r g5] eqn:Hrun.
  simpl fst. intros ->.
  cbv [createBlock createForInStatement createForStatement
       createVariableStatement createVariableStatementOf
       createVariableDeclarationList createVariableDeclarationListOf
       createVariableDeclaration createEmptyArrayLiteralExpression
       createIdentifierExpression createCallStatement createMemberExpression
       createArgumentList createNumberLiteral createBinaryOperator
       createOperatorToken createPostfixExpression createIfStatement
       createUnaryExpression createParenExpression createContinueStatement
       app] in Hrun.
  cbn [transformAny ParseTreeTransformerM.transformDefault
       transformForInStatement mapM] in Hrun.
  unfold bind, ret in Hrun.
  run; discriminate.
Qed.

Lemma transformTree_desugars_its_output_witness :
  fst (transformTree 4
         (desugared "$__0" "$__1" "$__2" "$__3"
            (IdentifierExpression "o")
            (IdentifierExpression "k")
            (ExpressionStatement
               (BinaryOperator (IdentifierExpression "k") EQUAL
                  (keyAt "$__0" "$__3")))
            [ExpressionStatement
               (CallExpression (IdentifierExpression "f")
                  (ArgumentList [IdentifierExpression "k"]))]))
  <> Ok (desugared "$__0" "$__1" "$__2" "$__3"
           (IdentifierExpression "o")
           (IdentifierExpression "k")
           (ExpressionStatement
              (BinaryOperator (IdentifierExpression "k") EQUAL
                 (keyAt "$__0" "$__3")))
           [ExpressionStatement
              (CallExpression (IdentifierExpression "f")
                 (ArgumentList [IdentifierExpression "k"]))]).
Proof.
  apply (@transformTree_desugars_its_output
           (IdentifierExpression "k") (IdentifierExpression "o")
           (ExpressionStatement
              (CallExpression (IdentifierExpression "f")
                 (ArgumentList [IdentifierExpression "k"])))
           _ 0 4 4).
  reflexivity.
Defined.

End ForInTransformPassMore.

(* ================================================================== *)
(** * More about RuntimeInliner *)

Module RuntimeInlinerMore.
Import UniqueIdentifierGenerator RuntimeInliner RuntimeInlinerFacts.
Import Registry Placeholders.
Unset Implicit Arguments.

(** ** Entries that are there stay as they are *)

Lemma extends_refl s : extends s s.
Proof.
  split; [lia|]. intros name. split; [reflexivity|].
  intros Hnew item Hitem. rewrite (lookup_absent _ _ Hnew) in Hitem.
  discriminate.
Qed.

Lemma extends_trans s1 s2 s3 :
  extends s1 s2 -> extends s2 s3 -> extends s1 s3.
Proof.
  intros [Hg12 H12] [Hg23 H23]. split; [lia|].
  intros name. destruct (H12 name) as [Hold12 Hnew12].
  destruct (H23 name) as [Hold23 Hnew23]. split.
  - intros Hold. rewrite <- (Hold12 Hold). apply Hold23.
    apply has_lookup. rewrite (Hold12 Hold). now apply has_lookup.
  - intros Hnew item Hitem.
    destruct (has name (map_ s2)) eqn:Hmid.
    + rewrite (Hold23 eq_refl) in Hitem. now apply (Hnew12 Hnew).
    + now apply (Hnew23 eq_refl).
Qed.

Lemma extends_registered name expression s0 s1 :
  has name (map_ s0) = false -> extends s0 s1 ->
  extends s0 (registered name expression s1).
Proof.
  intros Hnew [Hg H01]. split; [simpl; lia|].
  intros x. destruct (H01 x) as [Hold01 Hnew01]. simpl.
  rewrite lookup_set. split.
  - intros Hold. destruct (String.eqb x name) eqn:E; [|now apply Hold01].
    apply String.eqb_eq in E. subst x. congruence.
  - intros Hx item.
    destruct (String.eqb x name); [|now apply Hnew01].
    intros H. injection H as <-. reflexivity.
Qed.

Section Methods.
Variable parse : string -> string -> ParseTree.
Variable inherits : string -> bool.

Lemma register_within_extends fuel :
  forall name source s r s',
    register_within parse inherits fuel name source s = (r, s') ->
    extends s s'.
Proof.
  induction fuel as [|fuel IH]; intros name source s r s' Hrun.
  - injection Hrun as _ <-. apply extends_refl.
  - rewrite register_within_S in Hrun.
    destruct (has name (map_ s)) eqn:Hnew.
    { injection Hrun as _ <-. apply extends_refl. }
    destruct source as [|text|];
      try (injection Hrun as _ <-; apply extends_refl).
    unfold bind in Hrun.
    destruct (replace _ _ s) as [[source'|e] s1] eqn:Hreplace.
    + assert (H01 : extends s s1).
      { eapply (replace_invariant State extends);
          [apply extends_refl | apply extends_trans | | exact Hreplace].
        intros q s0 r0 s0' Hcall. unfold callback, bind in Hcall.
        destruct (inShared inherits q).
        - destruct (register_within parse inherits fuel q _ s0)
            as [[[]|e] s2] eqn:Hshared.
          + apply getAsString_state in Hcall. subst s0'.
            eapply IH; eassumption.
          + injection Hcall as _ <-. eapply IH; eassumption.
        - simpl in Hcall. apply getAsString_state in Hcall. subst s0'.
          apply extends_refl. }
      simpl in Hrun. injection Hrun as _ <-.
      now apply (extends_registered name (parse source' name) s s1).
    + injection Hrun as _ <-.
      eapply (replace_invariant State extends);
        [apply extends_refl | apply extends_trans | | exact Hreplace].
      intros q s0 r0 s0' Hcall. unfold callback, bind in Hcall.
      destruct (inShared inherits q).
      * destruct (register_within parse inherits fuel q _ s0)
          as [[[]|e0] s2] eqn:Hshared.
        -- apply getAsString_state in Hcall. subst s0'.
           eapply IH; eassumption.
        -- injection Hcall as _ <-. eapply IH; eassumption.
      * simpl in Hcall. apply getAsString_state in Hcall. subst s0'.
        apply extends_refl.
Qed.

(** X10: [register] leaves the entries of the registry as they are,
    whether it returns or throws: the entry of a name that was registered
    keeps its expression, its identifier and its inserted mark; an entry
    that is new is not marked inserted; and the generator does not go
    back. *)
Theorem register_extends
        (name : string) (source : Value) (s s' : State) (r : Result unit) :
  register parse inherits name source s = (r, s') -> extends s s'.
Proof.
  apply register_within_extends.
Qed.

End Methods.

Lemma register_extends_witness :
  extends Samples.withToObject
          (snd (register Samples.quote Samples.es5 "f" (Str "%toObject(x)")
                         Samples.withToObject))
  /\ lookup "toObject"
            (map_ (snd (register Samples.quote Samples.es5 "f"
                                 (Str "%toObject(x)") Samples.withToObject)))
     = lookup "toObject" (map_ Samples.withToObject).
Proof.
  assert (H : extends Samples.withToObject
                (snd (register Samples.quote Samples.es5 "f"
                               (Str "%toObject(x)") Samples.withToObject))).
  { apply (register_extends Samples.quote Samples.es5 "f"
             (Str "%toObject(x)") Samples.withToObject _
             (fst (register Samples.quote Samples.es5 "f"
                            (Str "%toObject(x)") Samples.withToObject))).
    reflexivity. }
  split; [exact H|].
  destruct H as [_ H]. apply (H "toObject"). reflexivity.
Defined.

Section MoreMethods.
Variable parse : string -> string -> ParseTree.
Variable inherits : string -> bool.

(** ** Asking again *)

Lemma get_returns name opt_source s tree s' :
  get parse inherits name opt_source s = (Ok tree, s') ->
  exists item,
    lookup name (map_ s') = Some item /\
    tree = IdentifierExpression (uid item).
Proof.
  intros Hget. unfold get in Hget.
  match type of Hget with
  | bind ?c _ _ = _ => set (first := c) in Hget
  end.
  unfold bind in Hget.
  destruct (first s) as [[[]|e] s1]; [|discriminate].
  apply getAsIdentifierExpression_returns in Hget.
  destruct Hget as [-> Hitem]. exact Hitem.
Qed.

(** X11: what [get] has returned for a name it returns again, whatever
    source text comes with the later call, and the later call changes
    nothing: no entry, no mark, no identifier generated. *)
Theorem get_again (name : string) (opt_source opt_source' : Value)
        (s s' : State) (tree : ParseTree) :
  get parse inherits name opt_source s = (Ok tree, s') ->
  get parse inherits name opt_source' s' = (Ok tree, s').
Proof.
  intros Hget. apply get_returns in Hget.
  destruct Hget as [item [Hitem ->]].
  assert (Hhas : has name (map_ s') = true) by (apply has_lookup; eauto).
  unfold get. rewrite Hhas. simpl negb. cbv iota.
  unfold bind, ret, getAsIdentifierExpression. now rewrite Hitem.
Qed.

(** ** Unique identifiers *)

Lemma register_within_invariant (P : State -> Prop) :
  (forall name expression s, P s -> P (registered name expression s)) ->
  forall fuel name source s r s',
    register_within parse inherits fuel name source s = (r, s') ->
    P s -> P s'.
Proof.
  intros Hstep.
  induction fuel as [|fuel IH]; intros name source s r s' Hrun.
  - injection Hrun as _ <-. tauto.
  - rewrite register_within_S in Hrun.
    destruct (has name (map_ s)).
    { injection Hrun as _ <-. tauto. }
    destruct source as [|text|]; try (injection Hrun as _ <-; tauto).
    unfold bind in Hrun.
    assert (Hreplaced : forall r1 s1,
               replace (callback inherits
                          (register_within parse inherits fuel))
                       (placeholders text) s = (r1, s1) ->
               P s -> P s1).
    { intros r1 s1.
      apply (replace_invariant State (fun s s' => P s -> P s'));
        [tauto | tauto |].
      intros q s0 r0 s0' Hcall. unfold callback, bind in Hcall.
      destruct (inShared inherits q).
      - destruct (register_within parse inherits fuel q _ s0)
          as [[[]|e] s2] eqn:Hshared.
        + apply getAsString_state in Hcall. subst s0'.
          eapply IH; eassumption.
        + injection Hcall as _ <-. eapply IH; eassumption.
      - simpl in Hcall. apply getAsString_state in Hcall. subst s0'.
        tauto. }
    destruct (replace _ _ s) as [[source'|e] s1] eqn:Hreplace.
    + simpl in Hrun. injection Hrun as _ <-. intros Hs.
      apply (Hstep name (parse source' name) s1).
      eapply Hreplaced; [reflexivity | assumption].
    + injection Hrun as _ <-. eapply Hreplaced. reflexivity.
Qed.

Lemma uniqueIdentifiers_registered name expression s :
  uniqueIdentifiers s -> uniqueIdentifiers (registered name expression s).
Proof.
  intros [Hmade Hdistinct]. split.
  - intros x item. simpl. rewrite lookup_set.
    destruct (String.eqb x name).
    + intros H. injection H as <-. simpl.
      exists (identifierGenerator s). split; [lia | reflexivity].
    + intros Hitem. destruct (Hmade x item Hitem) as [index [Hlt Huid]].
      exists index. split; [lia | assumption].
  - intros x x' item item'. simpl. rewrite !lookup_set.
    destruct (String.eqb x name) eqn:Ex, (String.eqb x' name) eqn:Ex'.
    + intros _ _ _. apply String.eqb_eq in Ex, Ex'. congruence.
    + intros H Hitem' Huid. injection H as <-. simpl in Huid.
      destruct (Hmade x' item' Hitem') as [index [Hlt Hindex]].
      rewrite Hindex in Huid.
      apply ForInTransformPassFacts.identifier_inj in Huid. lia.
    + intros Hitem H Huid. injection H as <-. simpl in Huid.
      destruct (Hmade x item Hitem) as [index [Hlt Hindex]].
      rewrite Hindex in Huid.
      apply ForInTransformPassFacts.identifier_inj in Huid. lia.
    + apply Hdistinct.
Qed.

Lemma lookup_markInserted map name x item' :
  lookup x (markInserted map name) = Some item' ->
  exists item,
    lookup x map = Some item /\
    uid item' = uid item /\ expression item' = expression item.
Proof.
  unfold markInserted.
  destruct (lookup name map) as [marked|] eqn:Hname; [|eauto].
  rewrite lookup_set. destruct (String.eqb x name) eqn:Ex; [|eauto].
  apply String.eqb_eq in Ex. subst x.
  intros H. injection H as <-. eauto.
Qed.

Lemma lookup_fold_markInserted names : forall map x item',
  lookup x (fold_left markInserted names map) = Some item' ->
  exists item,
    lookup x map = Some item /\
    uid item' = uid item /\ expression item' = expression item.
Proof.
  induction names as [|name names IH]; intros map x item' Hitem'; simpl in *.
  - eauto.
  - apply IH in Hitem'. destruct Hitem' as (mid & Hmid & Huid & Hexpr).
    apply lookup_markInserted in Hmid.
    destruct Hmid as (item & Hitem & Huid' & Hexpr').
    exists item. repeat split; congruence.
Qed.

Lemma entries_after_transformProgram
      (tree : ParseTree) (s s' : State) (r : Result ParseTree) :
  transformProgram tree s = (r, s') ->
  identifierGenerator s' = identifierGenerator s /\
  keys (map_ s') = keys (map_ s) /\
  (forall name item',
      lookup name (map_ s') = Some item' ->
      exists item,
        lookup name (map_ s) = Some item /\
        uid item' = uid item /\ expression item' = expression item).
Proof.
  intros Hrun. split; [|split].
  - rewrite transformProgram_unfold in Hrun.
    destruct (pending (map_ s)); injection Hrun as _ <-; reflexivity.
  - eapply transformProgram_keys. eassumption.
  - rewrite transformProgram_unfold in Hrun.
    destruct (pending (map_ s)) as [|name names] eqn:Hpending;
      injection Hrun as _ <-; [eauto|].
    intros x item'.
    apply (lookup_fold_markInserted (name :: names) (map_ s) x item').
Qed.

(** X12: finalization touches the inserted marks only: it generates no
    identifier, the names of the registry are the same in the same order,
    and every entry has the identifier and the expression it had. *)
Theorem transformProgram_keeps_entries
        (tree : ParseTree) (s s' : State) (r : Result ParseTree) :
  transformProgram tree s = (r, s') ->
  identifierGenerator s' = identifierGenerator s /\
  keys (map_ s') = keys (map_ s) /\
  (forall name item',
      lookup name (map_ s') = Some item' ->
      exists item,
        lookup name (map_ s) = Some item /\
        uid item' = uid item /\ expression item' = expression item).
Proof.
  apply entries_after_transformProgram.
Qed.

Lemma uniqueIdentifiers_after (s s' : State) :
  identifierGenerator s' = identifierGenerator s ->
  (forall name item',
      lookup name (map_ s') = Some item' ->
      exists item,
        lookup name (map_ s) = Some item /\
        uid item' = uid item /\ expression item' = expression item) ->
  uniqueIdentifiers s -> uniqueIdentifiers s'.
Proof.
  intros Hg Hsame [Hmade Hdistinct]. split.
  - intros x item' Hitem'.
    destruct (Hsame x item' Hitem') as (item & Hitem & Huid & _).
    rewrite Hg, Huid. eapply Hmade. eassumption.
  - intros x x' item item' Hx Hx' Huid.
    destruct (Hsame x item Hx) as (i & Hi & Hui & _).
    destruct (Hsame x' item' Hx') as (i' & Hi' & Hui' & _).
    apply (Hdistinct x x' i i' Hi Hi'). congruence.
Qed.

Lemma uniqueIdentifiers_new g : uniqueIdentifiers (new g).
Proof.
  split; simpl; intros; discriminate.
Qed.

(** X13: no two helpers share an identifier.  Every identifier of the
    registry was made by the generator of the registry and no two entries
    have the same one: this holds of a new inliner, and [register], [get]
    and finalization keep it, whether they return or throw. *)
Theorem unique_identifiers_kept (s : State) :
  uniqueIdentifiers s ->
  (forall name source r s',
      register parse inherits name source s = (r, s') ->
      uniqueIdentifiers s') /\
  (forall name opt_source r s',
      get parse inherits name opt_source s = (r, s') ->
      uniqueIdentifiers s') /\
  (forall tree r s',
      transformProgram tree s = (r, s') -> uniqueIdentifiers s').
Proof.
  intros Hs.
  assert (Hregister : forall name source s0 r s',
             register parse inherits name source s0 = (r, s') ->
             uniqueIdentifiers s0 -> uniqueIdentifiers s').
  { intros name source s0 r s'. unfold register.
    apply register_within_invariant.
    intros. now apply uniqueIdentifiers_registered. }
  split; [|split].
  - intros name source r s' Hrun. eapply Hregister; eassumption.
  - intros name opt_source r s' Hrun. unfold get in Hrun.
    assert (Hlast : forall s0 r0 s0',
               getAsIdentifierExpression name s0 = (r0, s0') -> s0' = s0).
    { intros s0 r0 s0'. unfold getAsIdentifierExpression.
      destruct (lookup name (map_ s0)); congruence. }
    unfold bind at 1 in Hrun.
    destruct (has name (map_ s)); simpl negb in Hrun; cbv iota in Hrun.
    + simpl in Hrun. apply Hlast in Hrun. now subst.
    + unfold bind at 1, assert in Hrun.
      destruct (truthy _).
      * simpl in Hrun.
        destruct (register parse inherits name _ s) as [[[]|e] s1] eqn:Hreg.
        -- apply Hlast in Hrun. subst s1. eapply Hregister; eassumption.
        -- injection Hrun as _ <-. eapply Hregister; eassumption.
      * simpl in Hrun. injection Hrun as _ <-. assumption.
  - intros tree r s' Hrun.
    apply entries_after_transformProgram in Hrun.
    destruct Hrun as (Hg & _ & Hsame).
    now apply (uniqueIdentifiers_after s s').
Qed.

(** ** Between two finalizations *)

(** X14: what a finalization injects after a registration is what the
    registration has added.  When no entry is left to insert, the names
    pending after a call of [register], whether it returns or throws, are
    the names the call has added to the registry. *)
Theorem register_after_finalization
        (name : string) (source : Value) (s s' : State) (r : Result unit) :
  pending (map_ s) = [] ->
  register parse inherits name source s = (r, s') ->
  forall x,
    In x (pending (map_ s')) <->
    has x (map_ s') = true /\ has x (map_ s) = false.
Proof.
  intros Hdone Hrun x.
  apply register_within_extends in Hrun. destruct Hrun as [_ Hx].
  destruct (Hx x) as [Hold Hnew]. split.
  - intros Hpending. apply pending_entry in Hpending.
    destruct Hpending as (item & Hitem & Hfresh & _).
    split; [apply has_lookup; eauto|].
    destruct (has x (map_ s)) eqn:Hwas; [|reflexivity].
    rewrite (Hold eq_refl) in Hitem.
    pose proof (nothing_pending _ _ _ Hdone Hitem). congruence.
  - intros [Hnow Hwas]. apply has_lookup in Hnow as Hitem.
    destruct Hitem as [item Hitem].
    apply filter_In. split; [now apply has_In|].
    unfold notInserted. rewrite Hitem.
    now rewrite (Hnew Hwas item Hitem).
Qed.

(** ** The text that is parsed *)

Lemma callback_registered_name name s item :
  lookup name (map_ s) = Some item ->
  callback inherits (register_within parse inherits 1) name s
  = (Ok (uid item), s).
Proof.
  intros Hitem.
  assert (Hhas : has name (map_ s) = true) by (apply has_lookup; eauto).
  unfold callback, bind, getAsString.
  destruct (inShared inherits name).
  - rewrite register_within_S, Hhas. now rewrite Hitem.
  - simpl. now rewrite Hitem.
Qed.

Lemma replace_registered pieces s :
  (forall p, In (Hole p) pieces -> has p (map_ s) = true) ->
  replace (callback inherits (register_within parse inherits 1)) pieces s
  = (Ok (expand (map_ s) pieces), s).
Proof.
  induction pieces as [|[c|p] pieces IH]; intros Hknown.
  - reflexivity.
  - rewrite replace_Lit. unfold bind.
    rewrite IH by (intros p Hp; apply Hknown; now right). reflexivity.
  - rewrite replace_Hole. unfold bind.
    assert (Hp : has p (map_ s) = true) by (apply Hknown; now left).
    apply has_lookup in Hp. destruct Hp as [item Hitem].
    rewrite (callback_registered_name p s item Hitem).
    rewrite IH by (intros q Hq; apply Hknown; now right).
    simpl. now rewrite Hitem.
Qed.

(** X15: when every placeholder of the source text names a helper that is
    registered, [register] returns having added the one entry of the new
    name, with the next identifier of the generator, and the text it has
    parsed is the source text with the identifier of the helper for each
    placeholder. *)
Theorem register_expands (name text : string) (s : State) :
  has name (map_ s) = false ->
  (forall p, In (Hole p) (placeholders text) -> has p (map_ s) = true) ->
  register parse inherits name (Str text) s
  = (Ok tt,
     {| identifierGenerator := S (identifierGenerator s);
        map_ := map_ s ++
                [(name,
                  {| expression :=
                       parse (expand (map_ s) (placeholders text)) name;
                     uid := identifier (identifierGenerator s);
                     inserted := false |})] |}).
Proof.
  intros Hnew Hknown. unfold register.
  rewrite register_within_S, Hnew. unfold bind.
  rewrite (replace_registered _ _ Hknown).
  rewrite <- (set_new _ _ _ Hnew). reflexivity.
Qed.

End MoreMethods.

(** ** The scanner *)

Lemma append_assoc (a b c : string) :
  ((a ++ b) ++ c)%string = (a ++ (b ++ c))%string.
Proof.
  induction a as [|x a IH]; simpl; [reflexivity | now rewrite IH].
Qed.

Lemma append_empty (a : string) : (a ++ EmptyString)%string = a.
Proof.
  induction a as [|x a IH]; simpl; [reflexivity | now rewrite IH].
Qed.

Lemma unscan_app pieces pieces' :
  unscan (pieces ++ pieces') = (unscan pieces ++ unscan pieces')%string.
Proof.
  induction pieces as [|piece pieces IH]; simpl; [reflexivity|].
  now rewrite IH, append_assoc.
Qed.

Lemma unscan_flush pending : unscan (flush pending) = pendingText pending.
Proof.
  destruct pending as [[|c name]|]; simpl; try reflexivity.
  now rewrite append_empty.
Qed.

Lemma unscan_scan text : forall pending,
  unscan (scan pending text) = (pendingText pending ++ text)%string.
Proof.
  induction text as [|c text IH]; intros pending.
  - simpl. now rewrite unscan_flush, append_empty.
  - assert (Hrest : unscan (if Ascii.eqb c "%"
                            then scan (Some EmptyString) text
                            else Lit c :: scan None text)
                    = String c text).
    { destruct (Ascii.eqb c "%") eqn:E.
      - apply Ascii.eqb_eq in E. subst c. now rewrite IH.
      - simpl. now rewrite IH. }
    destruct pending as [name|]; cbn [scan].
    + destruct (isNameChar c).
      * rewrite IH. simpl. now rewrite append_assoc.
      * now rewrite unscan_app, unscan_flush, Hrest.
    + exact Hrest.
Qed.

Lemma allNameChars_app name c :
  allNameChars name = true -> isNameChar c = true ->
  allNameChars (name ++ String c EmptyString) = true.
Proof.
  intros Hname Hc. induction name as [|x name IH]; simpl in *.
  - now rewrite Hc.
  - apply andb_true_iff in Hname. destruct Hname as [-> Hname]. auto.
Qed.

Lemma matched_flush name rest :
  allNameChars name = true ->
  matched rest = true -> stopsAt rest = true ->
  matched (flush (Some name) ++ rest) = true /\
  stopsAt (flush (Some name) ++ rest) = true.
Proof.
  intros Hname Hmatched Hstops.
  destruct name as [|c name]; simpl flush; simpl app.
  - split; [|reflexivity]. simpl. now rewrite Hstops, Hmatched.
  - split; [|reflexivity].
    cbn [matched isName]. now rewrite Hname, Hstops, Hmatched.
Qed.

Lemma matched_scan text : forall pending,
  (forall name, pending = Some name -> allNameChars name = true) ->
  matched (scan pending text) = true /\
  (pending <> None -> stopsAt (scan pending text) = true).
Proof.
  induction text as [|c text IH]; intros pending Hpending.
  - destruct pending as [name|]; [|split; [reflexivity | congruence]].
    cbn [scan]. rewrite <- (app_nil_r (flush (Some name))).
    destruct (matched_flush name [] (Hpending name eq_refl) eq_refl eq_refl).
    split; auto.
  - assert (Hrest :
              matched (if Ascii.eqb c "%"
                       then scan (Some EmptyString) text
                       else Lit c :: scan None text) = true /\
              (isNameChar c = false ->
               stopsAt (if Ascii.eqb c "%"
                        then scan (Some EmptyString) text
                        else Lit c :: scan None text) = true)).
    { destruct (Ascii.eqb c "%") eqn:E.
      - destruct (IH (Some EmptyString)) as [Hm Hs].
        { intros name H. injection H as <-. reflexivity. }
        split; [assumption|]. intros _. apply Hs. discriminate.
      - destruct (IH None) as [Hm _]; [discriminate|].
        split.
        + cbn [matched]. now rewrite E, Hm.
        + intros Hc. simpl. now rewrite Hc. }
    destruct Hrest as [Hmatched Hstops].
    destruct pending as [name|]; cbn [scan].
    + destruct (isNameChar c) eqn:Hc.
      * destruct (IH (Some (name ++ String c EmptyString)%string))
          as [Hm Hs].
        { intros n H. injection H as <-.
          apply allNameChars_app; [now apply Hpending | assumption]. }
        split; [assumption|]. intros _. apply Hs. discriminate.
      * destruct (matched_flush name _ (Hpending name eq_refl)
                    Hmatched (Hstops eq_refl)).
        split; auto.
    + split; [assumption | congruence].
Qed.

(** X16: the placeholders [register] finds in a source text are the
    matches of [%] and a name: the text is kept character by character
    around them, so that writing [%] and the name back for each
    placeholder gives the source text; each holds one name character or
    more, and as many as follow the [%]; and no [%] that stays is followed
    by a name character. *)
Theorem placeholders_are_the_matches (text : string) :
  unscan (placeholders text) = text /\
  matched (placeholders text) = true.
Proof.
  unfold placeholders. split.
  - now rewrite unscan_scan.
  - apply matched_scan. discriminate.
Qed.

(** ** The properties at work *)

Lemma get_again_witness :
  get Samples.quote Samples.es5 "toObject" Undefined (new 0)
  = (Ok (IdentifierExpression "$__0"), Samples.withToObject) /\
  get Samples.quote Samples.es5 "toObject" (Str "0") Samples.withToObject
  = (Ok (IdentifierExpression "$__0"), Samples.withToObject).
Proof.
  split; [reflexivity|].
  apply (get_again Samples.quote Samples.es5 "toObject" Undefined (Str "0")
           (new 0)).
  reflexivity.
Defined.

Lemma transformProgram_keeps_entries_witness :
  transformProgram (Program []) Samples.withToObject
  = (Ok (Program [Samples.toObjectStatement]), finalized) /\
  identifierGenerator finalized = identifierGenerator Samples.withToObject /\
  keys (map_ finalized) = keys (map_ Samples.withToObject).
Proof.
  split; [reflexivity|].
  destruct (transformProgram_keeps_entries (Program []) Samples.withToObject
              finalized (Ok (Program [Samples.toObjectStatement])) eq_refl)
    as (Hg & Hkeys & _).
  split; assumption.
Defined.

Lemma unique_identifiers_kept_witness :
  uniqueIdentifiers (new 0) /\
  uniqueIdentifiers
    (snd (register Samples.quote Samples.es5 "f" (Str "%toObject(x)")
                   (new 0))).
Proof.
  split; [apply uniqueIdentifiers_new|].
  destruct (unique_identifiers_kept Samples.quote Samples.es5 (new 0)
              (uniqueIdentifiers_new 0)) as [Hregister _].
  apply (Hregister "f" (Str "%toObject(x)")
           (fst (register Samples.quote Samples.es5 "f" (Str "%toObject(x)")
                          (new 0)))).
  reflexivity.
Defined.

Lemma register_after_finalization_witness :
  pending (map_ finalized) = [] /\
  In "f" (pending
            (map_ (snd (register Samples.quote Samples.es5 "f"
                                 (Str "%toObject(x)") finalized)))) /\
  ~ In "toObject"
       (pending
          (map_ (snd (register Samples.quote Samples.es5 "f"
                               (Str "%toObject(x)") finalized)))).
Proof.
  split; [reflexivity|].
  pose proof (register_after_finalization Samples.quote Samples.es5 "f"
                (Str "%toObject(x)") finalized
                (snd (register Samples.quote Samples.es5 "f"
                               (Str "%toObject(x)") finalized))
                (fst (register Samples.quote Samples.es5 "f"
                               (Str "%toObject(x)") finalized))
                eq_refl eq_refl) as Hpending.
  split.
  - apply (Hpending "f"). split; reflexivity.
  - intros Hin. apply (Hpending "toObject") in Hin.
    destruct Hin as [_ Hwas]. discriminate Hwas.
Defined.

Lemma register_expands_witness :
  register Samples.quote Samples.es5 "f" (Str "%toObject(x)")
           Samples.withToObject
  = (Ok tt,
     {| identifierGenerator := 2;
        map_ := map_ Samples.withToObject ++
                [("f", {| expression := Samples.quote "$__0(x)" "f";
                          uid := "$__1";
                          inserted := false |})] |}).
Proof.
  apply (register_expands Samples.quote Samples.es5 "f" "%toObject(x)"
           Samples.withToObject eq_refl).
  intros p [Hp | [Hp | [Hp | [Hp | []]]]]; try discriminate Hp.
  injection Hp as <-. reflexivity.
Defined.

End RuntimeInlinerMore.

(* ================================================================== *)
(** * NullTree *)

Module NullTreeFacts.
Import NullTree.
Unset Implicit Arguments.

Lemma construct_keeps s a :
  instance s = Some a ->
  fst (construct s) = a /\ instance (snd (construct s)) = Some a.
Proof.
  intros Hset. unfold construct. rewrite Hset. split; reflexivity.
Qed.

Lemma construct_sets s :
  instance (snd (construct s)) = Some (fst (construct s)).
Proof.
  unfold construct. destruct (instance s); reflexivity.
Qed.

Lemma constructMany_same n : forall s a,
  instance s = Some a -> Forall (eq a) (fst (constructMany n s)).
Proof.
  induction n as [|n IH]; intros s a Hset; simpl; [constructor|].
  destruct (construct_keeps s a Hset) as [Hfirst Hnext].
  destruct (construct s) as [reference s1]. simpl in Hfirst, Hnext.
  specialize (IH s1 a Hnext).
  destruct (constructMany n s1) as [references s2]. simpl in *.
  constructor; [now symmetry | assumption].
Qed.

Lemma setFields_last fields blank heap :
  nth_error (setFields (List.length heap) fields (heap ++ [blank]))
            (List.length heap)
  = Some fields.
Proof.
  induction heap as [|old heap IH]; simpl; [reflexivity | exact IH].
Qed.

(** X17: [NullTree] is a singleton.  Every construction after one
    returns the reference that one has returned; and the object a first
    construction returns has the type [NULL_TREE] and no location. *)
Theorem NullTree_is_a_singleton (s : State) :
  (forall n,
      Forall (eq (fst (construct s)))
             (fst (constructMany n (snd (construct s))))) /\
  (instance s = None ->
   nth_error (objects (snd (construct s))) (fst (construct s))
   = Some {| type := Some NULL_TREE; location := None |}).
Proof.
  split.
  - intros n. apply constructMany_same. apply construct_sets.
  - intros Hfirst. unfold construct. rewrite Hfirst. simpl.
    apply setFields_last.
Qed.

Lemma NullTree_is_a_singleton_witness :
  fst (constructMany 3 initial) = [0; 0; 0] /\
  Forall (eq 0) (fst (constructMany 2 (snd (construct initial)))).
Proof.
  split; [reflexivity|].
  destruct (NullTree_is_a_singleton initial) as [Hsame _].
  apply (Hsame 2).
Defined.

End NullTreeFacts.
